(** * Option repricing against a derivatives venue: model and verification

    A shallow embedding of [utils.py], [api_requests.py], [pricing.py] and
    [main.py], followed by the theorems that settle the claims of the
    specification and by further properties of the code.

    Conventions of the embedding.
    - A Python [float] that holds a finite value is a real number; the
      arithmetic on finite values is exact (binary64 rounding, overflow and
      underflow are outside the model).  Where NumPy produces a non-finite
      value instead of raising (division by zero, logarithm of a
      non-positive number, square root of a negative number) the value is
      kept: see [float64].
    - A Python exception is a value of [exn]; a computation that may raise
      has type [result A].  [None] is Rocq's [None].
    - The venue (HTTP transport) and the wall clock are explicit arguments:
      a [Venue] record and a reading [now] of the clock.  The retry loop
      of [fetch_data] and the construction of the option grid from the
      book summary are modelled on their own ([Transport], [Book]); the
      grid's model takes [utils.process_strike] (Python's [float] on a
      text) as an argument. *)

From Stdlib Require Import Reals Lra Lia ZArith List String Ascii Bool Classical.
From Stdlib Require Import Sorting.Sorted Permutation.
Import ListNotations.

Set Implicit Arguments.

(* ================================================================== *)
(** * Python values: exceptions and results *)
(* ================================================================== *)

Module Py.

(** The exceptions the modelled code can raise.  All of them derive from
    [Exception], so a bare [except Exception] catches every one. *)
Inductive exn : Type :=
| ValueError
| TypeError
| KeyError
| ZeroDivisionError
| UnboundLocalError.

(** A computation that returns a value or raises. *)
Inductive result (A : Type) : Type :=
| Ok (a : A)
| Raise (e : exn).

Arguments Ok {A} a.
Arguments Raise {A} e.

Definition bind {A B : Type} (m : result A) (k : A -> result B) : result B :=
  match m with
  | Ok a => k a
  | Raise e => Raise e
  end.

(** [try: m except Exception: return None], for a body that returns a
    value. *)
Definition try_except_None {A : Type} (m : result A) : option A :=
  match m with
  | Ok a => Some a
  | Raise _ => None
  end.

(** The body returns an optional value itself ([return price] where the
    price may be [None]). *)
Definition try_except_None_opt {A : Type} (m : result (option A)) : option A :=
  match m with
  | Ok a => a
  | Raise _ => None
  end.

(** Runs [f] over a list from left to right and stops at the first
    exception. *)
Fixpoint mapM {A B : Type} (f : A -> result B) (l : list A) : result (list B) :=
  match l with
  | [] => Ok []
  | a :: r =>
      bind (f a) (fun b => bind (mapM f r) (fun bs => Ok (b :: bs)))
  end.

End Py.

Export Py.

(** [x <- m ;; k] runs [m] and, unless it raised, goes on with [k]. *)
Declare Scope py_scope.
Delimit Scope py_scope with py.
Notation "x <- m ;; k" := (Py.bind m (fun x => k))
  (at level 61, m at next level, right associativity) : py_scope.
Notation "' p <- m ;; k" := (Py.bind m (fun p => k))
  (at level 61, p pattern, m at next level, right associativity) : py_scope.

(* ================================================================== *)
(** * Strings: the [str] methods the code uses *)
(* ================================================================== *)

Module Str.

Local Open Scope char_scope.
Local Open Scope nat_scope.

Definition is_upper_char (c : ascii) : bool :=
  (65 <=? nat_of_ascii c) && (nat_of_ascii c <=? 90).

Definition is_lower_char (c : ascii) : bool :=
  (97 <=? nat_of_ascii c) && (nat_of_ascii c <=? 122).

Definition is_digit_char (c : ascii) : bool :=
  (48 <=? nat_of_ascii c) && (nat_of_ascii c <=? 57).

Definition lower_char (c : ascii) : ascii :=
  if is_upper_char c then ascii_of_nat (nat_of_ascii c + 32) else c.

Definition upper_char (c : ascii) : ascii :=
  if is_lower_char c then ascii_of_nat (nat_of_ascii c - 32) else c.

(** [str.lower] and [str.upper] (ASCII). *)
Fixpoint lower (s : string) : string :=
  match s with
  | EmptyString => EmptyString
  | String c r => String (lower_char c) (lower r)
  end.

Fixpoint upper (s : string) : string :=
  match s with
  | EmptyString => EmptyString
  | String c r => String (upper_char c) (upper r)
  end.

(** [x in l] for a list of strings. *)
Fixpoint mem (x : string) (l : list string) : bool :=
  match l with
  | [] => false
  | y :: r => String.eqb x y || mem x r
  end.

(** [s.split(sep)[-1]] for a one-character separator: the text after the
    last separator (the whole string when there is none).  [acc] is the
    segment read so far. *)
Fixpoint last_segment_from (sep : ascii) (acc s : string) : string :=
  match s with
  | EmptyString => acc
  | String c r =>
      if Ascii.eqb c sep then last_segment_from sep EmptyString r
      else last_segment_from sep (acc ++ String c EmptyString) r
  end.

Definition split_last (sep : ascii) (s : string) : string :=
  last_segment_from sep EmptyString s.

(** [needle in s] for strings. *)
Fixpoint contains (needle s : string) : bool :=
  String.prefix needle s ||
  match s with
  | EmptyString => false
  | String _ r => contains needle r
  end.

Definition digit_val (c : ascii) : Z := Z.of_nat (nat_of_ascii c - 48).

End Str.

(* ================================================================== *)
(** * scipy.stats.norm.cdf: the standard normal distribution function

    [norm.cdf] is library code; on finite arguments it is the function
    [Phi x = 1/2 + (1 / sqrt (2 pi)) * integral from 0 to x of
    exp (- t^2 / 2) dt].  It is constructed here from the Riemann integral
    of the density.  The normalising constant [sqrt (2 pi)] is the total
    mass of the density; it is obtained as twice the least upper bound of
    the integrals over [[0, x]]. *)
(* ================================================================== *)

Module NormalCdf.

Local Open Scope R_scope.

Definition gauss (t : R) : R := exp (- (t * t / 2)).

Lemma dlim_exp_comp (u : R -> R) (x l : R) :
  derivable_pt_lim u x l ->
  derivable_pt_lim (fun t => exp (u t)) x (exp (u x) * l).
Proof.
  intros Hu.
  apply (derivable_pt_lim_comp u exp x l (exp (u x)) Hu (derivable_pt_lim_exp (u x))).
Qed.


Lemma dlim_half_square (x : R) :
  derivable_pt_lim (fun t => - (t * t / 2)) x (- x).
Proof.
  apply derivable_pt_lim_ext with (f := (- (mult_real_fct (/ 2) Rsqr))%F).
  - intros z. unfold opp_fct, mult_real_fct, Rsqr. field.
  - replace (- x) with (- (/ 2 * (2 * x))) by field.
    apply derivable_pt_lim_opp, derivable_pt_lim_scal, derivable_pt_lim_Rsqr.
Qed.

Lemma gauss_deriv (x : R) : derivable_pt_lim gauss x (gauss x * - x).
Proof.
  unfold gauss. apply (@dlim_exp_comp (fun t => - (t * t / 2)) x (- x)), dlim_half_square.
Qed.

Lemma gauss_derivable : derivable gauss.
Proof. intros x. exists (gauss x * - x). apply gauss_deriv. Qed.

Lemma gauss_continuity : continuity gauss.
Proof. apply derivable_continuous, gauss_derivable. Qed.

Lemma gauss_pos (t : R) : 0 < gauss t.
Proof. apply exp_pos. Qed.


Lemma gauss_integrable (a b : R) : Riemann_integrable gauss a b.
Proof.
  destruct (Rle_dec a b) as [Hab | Hab].
  - apply continuity_implies_RiemannInt; [exact Hab | intros; apply gauss_continuity].
  - apply RiemannInt_P1, continuity_implies_RiemannInt;
      [lra | intros; apply gauss_continuity].
Qed.

(** The integral of the density from 0 to x. *)
Definition G (x : R) : R := RiemannInt (gauss_integrable 0 x).

Lemma G_0 : G 0 = 0.
Proof. unfold G. apply RiemannInt_P9. Qed.

Lemma G_deriv (x : R) : derivable_pt_lim G x (gauss x).
Proof.
  set (M := Rabs x + 1).
  assert (HM : - M < x < M).
  { unfold M. pose proof (Rabs_pos x). split.
    - destruct (Rcase_abs x) as [Hx|Hx].
      + rewrite (Rabs_left _ Hx). lra.
      + rewrite (Rabs_right _ Hx). lra.
    - pose proof (Rle_abs x). lra. }
  assert (h : - M <= M) by lra.
  assert (C0 : forall y, - M <= y <= M -> continuity_pt gauss y)
    by (intros; apply gauss_continuity).
  set (P := primitive h (FTC_P1 h C0)).
  apply derivable_pt_lim_locally_ext
    with (f := (P - fct_cte (RiemannInt (gauss_integrable (- M) 0)))%F)
         (a := - M) (b := M); [exact HM | | ].
  - intros z Hz. unfold minus_fct, fct_cte, P, primitive, G.
    destruct (Rle_dec (- M) z) as [H1 | H1]; [ | lra].
    destruct (Rle_dec z M) as [H2 | H2]; [ | lra].
    rewrite <- (RiemannInt_P26 (gauss_integrable (- M) 0) (gauss_integrable 0 z)
                  (FTC_P1 h C0 H1 H2)).
    ring.
  - replace (gauss x) with (gauss x - 0) by ring.
    apply derivable_pt_lim_minus.
    + apply RiemannInt_P28. lra.
    + apply derivable_pt_lim_const.
Qed.

Lemma G_derivable : derivable G.
Proof. intros x. exists (gauss x). apply G_deriv. Qed.

Lemma G_derive (x : R) : derive_pt G x (G_derivable x) = gauss x.
Proof. apply derive_pt_eq_0, G_deriv. Qed.

Lemma G_strict_increasing : strict_increasing G.
Proof.
  apply (positive_derivative G G_derivable).
  intros x. rewrite G_derive. apply gauss_pos.
Qed.


Lemma G_bounded (x : R) : G x <= exp (/ 2).
Proof.
  destruct (Rle_dec x 0) as [Hx | Hx].
  - assert (G x <= 0).
    { destruct Hx as [Hx | ->]; [ | rewrite G_0; lra].
      pose proof (@G_strict_increasing _ _ Hx) as Hlt. rewrite G_0 in Hlt. lra. }
    pose proof (exp_pos (/ 2)). lra.
  - set (B := fun t => exp (/ 2) * (1 - exp (- t)) - G t).
    assert (dB : forall t, derivable_pt_lim B t (exp (/ 2 - t) - gauss t)).
    { intros t. unfold B.
      apply (derivable_pt_lim_minus (fun t => exp (/ 2) * (1 - exp (- t))) G t
               (exp (/ 2 - t)) (gauss t)); [ | apply G_deriv].
      replace (exp (/ 2 - t)) with (exp (/ 2) * (0 - exp (- t) * - 1)).
      2:{ unfold Rminus at 2. rewrite exp_plus. ring. }
      apply (derivable_pt_lim_scal (fun t => 1 - exp (- t)) (exp (/ 2)) t).
      apply (derivable_pt_lim_minus (fun _ => 1) (fun t => exp (- t)) t 0 (exp (- t) * -1)).
      - apply (derivable_pt_lim_const 1).
      - apply (@dlim_exp_comp (fun t => - t) t (-1)).
        apply derivable_pt_lim_ext with (f := (- id)%F); [reflexivity | ].
        apply derivable_pt_lim_opp, derivable_pt_lim_id. }
    assert (pr : derivable B) by (intros t; eexists; apply dB).
    assert (Hinc : increasing B).
    { apply (nonneg_derivative_1 B pr). intros t.
      rewrite (derive_pt_eq_0 _ _ _ (pr t) (dB t)).
      unfold gauss.
      assert (exp (- (t * t / 2)) <= exp (/ 2 - t)); [ | lra].
      assert (Hle : - (t * t / 2) <= / 2 - t).
      { pose proof (Rle_0_sqr (t - 1)) as Hs. unfold Rsqr in Hs. lra. }
      destruct Hle as [Hlt | Heq]; [left; apply exp_increasing; exact Hlt | ].
      rewrite Heq. lra. }
    assert (H0 : B 0 <= B x) by (apply Hinc; lra).
    unfold B in H0. rewrite Ropp_0, exp_0, G_0 in H0.
    pose proof (exp_pos (/ 2)). pose proof (exp_pos (- x)). nra.
Qed.


(** The values taken by [G]; their least upper bound is half of the total
    mass of the density. *)
Definition G_range (y : R) : Prop := exists x, y = G x.

Lemma G_range_bound : bound G_range.
Proof. exists (exp (/ 2)). intros y [x ->]. apply G_bounded. Qed.

Lemma G_range_inhabited : exists y, G_range y.
Proof. exists (G 0), 0. reflexivity. Qed.

Definition half_mass : R :=
  proj1_sig (completeness G_range G_range_bound G_range_inhabited).





(** The standard normal distribution function: the integral of the
    density [exp (- t^2 / 2)] up to [x], divided by its total mass. *)
Definition Phi (x : R) : R := / 2 + G x / (2 * half_mass).











End NormalCdf.


(* ================================================================== *)
(** * NumPy scalars: [float64] *)
(* ================================================================== *)

Module Np.

Local Open Scope R_scope.

(** A [float64] value: a finite number, an infinity or a NaN.  Finite
    values are exact reals and zero carries no sign (it stands for [+0.0]). *)
Inductive float64 : Type :=
| Fin (r : R)
| PInf
| NInf
| NaN.

Definition Rltb (a b : R) : bool := if Rlt_dec a b then true else false.
Definition Reqb (a b : R) : bool := if Req_dec_T a b then true else false.

Definition neg (x : float64) : float64 :=
  match x with
  | Fin r => Fin (- r)
  | PInf => NInf
  | NInf => PInf
  | NaN => NaN
  end.

Definition add (x y : float64) : float64 :=
  match x, y with
  | NaN, _ | _, NaN => NaN
  | Fin a, Fin b => Fin (a + b)
  | PInf, NInf | NInf, PInf => NaN
  | PInf, _ | _, PInf => PInf
  | NInf, _ | _, NInf => NInf
  end.

Definition sub (x y : float64) : float64 := add x (neg y).

(** The infinity [positive] selects, scaled by the sign of [a]; NaN when
    [a] is zero. *)
Definition inf_times (positive : bool) (a : R) : float64 :=
  if Rlt_dec 0 a then (if positive then PInf else NInf)
  else if Rlt_dec a 0 then (if positive then NInf else PInf)
  else NaN.

Definition mul (x y : float64) : float64 :=
  match x, y with
  | NaN, _ | _, NaN => NaN
  | Fin a, Fin b => Fin (a * b)
  | Fin a, PInf | PInf, Fin a => inf_times true a
  | Fin a, NInf | NInf, Fin a => inf_times false a
  | PInf, PInf | NInf, NInf => PInf
  | PInf, NInf | NInf, PInf => NInf
  end.

(** NumPy's true division: a division by zero gives an infinity or a NaN
    (and a warning); it never raises. *)
Definition div (x y : float64) : float64 :=
  match x, y with
  | NaN, _ | _, NaN => NaN
  | Fin a, Fin b =>
      if Req_dec_T b 0 then inf_times true a else Fin (a / b)
  | Fin _, PInf | Fin _, NInf => Fin 0
  | PInf, Fin b => if Rle_dec 0 b then PInf else NInf
  | NInf, Fin b => if Rle_dec 0 b then NInf else PInf
  | _, _ => NaN
  end.

(** [np.log]: minus infinity at zero and NaN below (with a warning). *)
Definition log (x : float64) : float64 :=
  match x with
  | Fin r => if Rlt_dec 0 r then Fin (ln r)
             else if Req_dec_T r 0 then NInf else NaN
  | PInf => PInf
  | NInf | NaN => NaN
  end.

(** [np.sqrt]: NaN below zero (with a warning). *)
Definition sqrt (x : float64) : float64 :=
  match x with
  | Fin r => if Rle_dec 0 r then Fin (R_sqrt.sqrt r) else NaN
  | PInf => PInf
  | NInf | NaN => NaN
  end.

(** [scipy.stats.norm.cdf] *)
Definition norm_cdf (x : float64) : float64 :=
  match x with
  | Fin r => Fin (NormalCdf.Phi r)
  | PInf => Fin 1
  | NInf => Fin 0
  | NaN => NaN
  end.

(** Rounding of a real to the nearest integer, ties to the even one. *)
Definition round_half_even (r : R) : Z :=
  let f := Int_part r in
  let d := r - IZR f in
  if Rlt_dec d (/ 2) then f
  else if Rlt_dec (/ 2) d then (f + 1)%Z
  else if Z.even f then f else (f + 1)%Z.

(** [round(x, 4)] of a float: non-finite values are returned unchanged. *)
Definition round4 (x : float64) : float64 :=
  match x with
  | Fin r => Fin (IZR (round_half_even (r * 10000)) / 10000)
  | _ => x
  end.

End Np.

Export Np(float64, Fin, PInf, NInf, NaN).

(* ================================================================== *)
(** * utils.py *)
(* ================================================================== *)

Module Utils.

Local Open Scope Z_scope.

(** ** [datetime]: calendar days

    A naive [datetime] produced by [strptime] with the format [%d%b%y] is
    a midnight; it is represented by the proleptic Gregorian ordinal of
    its day ([date.toordinal()]), so that the difference of two of them
    has [.days] equal to the difference of the ordinals. *)

Definition is_leap (y : Z) : bool :=
  (y mod 4 =? 0) && (negb (y mod 100 =? 0) || (y mod 400 =? 0)).

Definition days_before_year (y : Z) : Z :=
  let y1 := y - 1 in y1 * 365 + y1 / 4 - y1 / 100 + y1 / 400.

Definition days_in_month (y m : Z) : Z :=
  if m =? 2 then (if is_leap y then 29 else 28)
  else if (m =? 4) || (m =? 6) || (m =? 9) || (m =? 11) then 30
  else 31.

Definition days_before_month (y m : Z) : Z :=
  fold_right Z.add 0
    (map (days_in_month y) (map Z.of_nat (seq 1 (Z.to_nat (m - 1))))).

Definition ymd2ord (y m d : Z) : Z :=
  days_before_year y + days_before_month y m + d.

(** The month abbreviations of [%b] (C locale), matched ignoring case. *)
Definition month_of_abbrev (s : string) : option Z :=
  let t := Str.lower s in
  if String.eqb t "jan" then Some 1 else
  if String.eqb t "feb" then Some 2 else
  if String.eqb t "mar" then Some 3 else
  if String.eqb t "apr" then Some 4 else
  if String.eqb t "may" then Some 5 else
  if String.eqb t "jun" then Some 6 else
  if String.eqb t "jul" then Some 7 else
  if String.eqb t "aug" then Some 8 else
  if String.eqb t "sep" then Some 9 else
  if String.eqb t "oct" then Some 10 else
  if String.eqb t "nov" then Some 11 else
  if String.eqb t "dec" then Some 12 else None.

(** The day field of [%d]: the alternatives [3[0-1]], [[1-2]\d], [0[1-9]],
    [[1-9]] and a blank followed by [[1-9]].  The field is followed by a
    month name, so two leading digits must form a day between 01 and 31.
    Returns the day and the rest of the text. *)
Definition parse_day_field (s : string) : option (Z * string) :=
  match s with
  | String c1 (String c2 r) =>
      if Str.is_digit_char c1 && Str.is_digit_char c2 then
        let d := 10 * Str.digit_val c1 + Str.digit_val c2 in
        if (1 <=? d) && (d <=? 31) then Some (d, r) else None
      else if Str.is_digit_char c1 && negb (Str.digit_val c1 =? 0) then
        Some (Str.digit_val c1, String c2 r)
      else if Ascii.eqb c1 " " && Str.is_digit_char c2
              && negb (Str.digit_val c2 =? 0) then
        Some (Str.digit_val c2, r)
      else None
  | _ => None
  end.

(** The year field of [%y]: exactly two digits, which must end the text;
    values 69 to 99 are years 1969 to 1999, values 0 to 68 are 2000 to
    2068. *)
Definition parse_year_field (s : string) : option Z :=
  match s with
  | String c1 (String c2 EmptyString) =>
      if Str.is_digit_char c1 && Str.is_digit_char c2 then
        let yy := 10 * Str.digit_val c1 + Str.digit_val c2 in
        Some (if yy <=? 68 then 2000 + yy else 1900 + yy)
      else None
  | _ => None
  end.

(** [datetime.strptime(s, "%d%b%y")]: the day's ordinal, or [ValueError]
    when the text does not match the format or the day does not exist in
    the month. *)
Definition strptime_dby (s : string) : result Z :=
  match parse_day_field s with
  | None => Raise ValueError
  | Some (d, r) =>
      match month_of_abbrev (String.substring 0 3 r) with
      | None => Raise ValueError
      | Some m =>
          if negb (String.length r =? 5)%nat then Raise ValueError else
          match parse_year_field (String.substring 3 2 r) with
          | None => Raise ValueError
          | Some y =>
              if d <=? days_in_month y m then Ok (ymd2ord y m d)
              else Raise ValueError
          end
      end
  end.

(** [convert_future_name_to_date]: the expiry date of an instrument name
    such as [BTC-27JUN25]. *)
Definition convert_future_name_to_date (future_str : string) : result Z :=
  let expiration_str := Str.split_last "-" future_str in
  strptime_dby expiration_str.

(** [map_currency]: the currency a contract is settled in. *)
Definition map_currency (currency : string) : string :=
  if Str.contains "USDC" currency then "USDC"%string else currency.

(** [map_index_name] *)
Definition map_index_name (currency : string) : string :=
  if Str.mem (Str.lower currency) ["btc"; "eth"]%string
  then (Str.lower currency ++ "_usd")%string
  else Str.lower currency.

(** ** Time to expiry *)

Local Open Scope string_scope.

(** [re.match(r"(\d{1,2})([A-Z]{3})(\d{2})", s)]: the three groups of a
    match at the start of [s] (text after the match is ignored). *)
Definition match_expiry_pattern (s : string) : option (string * string * string) :=
  let tail_ok (day rest : string) :=
    let month := String.substring 0 3 rest in
    let year := String.substring 3 2 rest in
    if (String.length month =? 3)%nat && (String.length year =? 2)%nat
       && forallb Str.is_upper_char (list_ascii_of_string month)
       && forallb Str.is_digit_char (list_ascii_of_string year)
    then Some (day, month, year) else None in
  match s with
  | String c1 (String c2 r) =>
      if Str.is_digit_char c1 && Str.is_digit_char c2 then
        tail_ok (String c1 (String c2 EmptyString)) r
      else if Str.is_digit_char c1 then
        tail_ok (String c1 EmptyString) (String c2 r)
      else None
  | _ => None
  end.

(** [int(day)] for one or two digits. *)
Fixpoint int_of_digits (acc : Z) (s : string) : Z :=
  match s with
  | EmptyString => acc
  | String c r => int_of_digits (10 * acc + Str.digit_val c) r
  end.

(** [f"{n:02d}"] for [0 <= n <= 99]. *)
Definition format_02d (n : Z) : string :=
  let digit (k : Z) := ascii_of_nat (48 + Z.to_nat k) in
  String (digit (n / 10)) (String (digit (n mod 10)) EmptyString).

(** Seconds in the [365 * 24 * 3600] of the source. *)
Definition seconds_per_year : R := (365 * 24 * 3600)%R.

(** [convert_expiration_to_years].  [now] is [datetime.now(timezone.utc)]
    in seconds since the midnight that starts the day of ordinal 0; the
    expiry is taken at 08:00 UTC of its day.  Every exception of the body
    is caught and turned into [None]. *)
Definition convert_expiration_to_years (now : R) (expiration : string) : option R :=
  try_except_None
    (match match_expiry_pattern (Str.upper expiration) with
     | None => Raise ValueError
     | Some (day, month, year) =>
         let normalized_date :=
           format_02d (int_of_digits 0 day) ++ month ++ year in
         (expiration_day <- strptime_dby normalized_date ;;
          let expiration_date := (IZR (expiration_day * 86400 + 8 * 3600))%R in
          let delta_seconds := (expiration_date - now)%R in
          if Rlt_dec delta_seconds 0 then Raise ValueError
          else Ok (delta_seconds / seconds_per_year)%R)%py
     end).

End Utils.

(* ================================================================== *)
(** * Dictionaries keyed by floats *)
(* ================================================================== *)

Module Dict.

Local Open Scope R_scope.

(** A [dict] with float keys, in insertion order; the keys are pairwise
    distinct ([wf]).  The keys are reals and [sorted] reads the items in
    order, so the dictionary is an association list. *)
Definition t (V : Type) : Type := list (R * V).

Definition keys {V : Type} (d : t V) : list R := map fst d.

Definition wf {V : Type} (d : t V) : Prop := NoDup (keys d).

(** [k in d] *)
Fixpoint mem_key (k : R) (ks : list R) : bool :=
  match ks with
  | [] => false
  | k' :: r => if Req_dec_T k k' then true else mem_key k r
  end.

(** [d[k]]: raises [KeyError] when the key is missing. *)
Fixpoint get {V : Type} (d : t V) (k : R) : result V :=
  match d with
  | [] => Raise KeyError
  | (k', v) :: r => if Req_dec_T k k' then Ok v else get r k
  end.

(** [d[k] = v]: replaces the value of an existing key in place, appends a
    new key. *)
Fixpoint set {V : Type} (d : t V) (k : R) (v : V) : t V :=
  match d with
  | [] => [(k, v)]
  | (k', v') :: r =>
      if Req_dec_T k k' then (k', v) :: r else (k', v') :: set r k v
  end.

(** [sorted(d.items())]: the keys of a dictionary are distinct, so the
    order of the pairs is the order of their keys. *)
Fixpoint insert_sorted {V : Type} (e : R * V) (l : list (R * V)) : list (R * V) :=
  match l with
  | [] => [e]
  | e' :: r =>
      if Rle_dec (fst e) (fst e') then e :: l else e' :: insert_sorted e r
  end.

Fixpoint sorted_items {V : Type} (d : t V) : list (R * V) :=
  match d with
  | [] => []
  | e :: r => insert_sorted e (sorted_items r)
  end.

End Dict.

(* ================================================================== *)
(** * api_requests.py: what the venue answers *)
(* ================================================================== *)

Module Api.

Local Open Scope string_scope.

(** A strike's quote: [(mark_iv / 100, round(mark_price, 4))]. *)
Definition quote : Type := (R * R)%type.

(** The answers of the venue at one moment.  A field is [None] when
    [fetch_data] gave up after its retries ([fetch_data] itself never
    raises).
    - [ticker name]: the [mark_price] of the ticker of an instrument;
    - [index_price name]: the [index_price] of an index;
    - [instruments currency]: the names of the futures of a currency;
    - [option_grid currency expiry]: the outcome of
      [get_strike_iv_price_dict], the call and the put dictionaries (the
      parsing of the book summary is the collaborator's). *)
Record Venue : Type := {
  ticker : string -> option R;
  index_price : string -> option R;
  instruments : string -> option (list string);
  option_grid : string -> string -> result (Dict.t quote * Dict.t quote)
}.

(** The currencies whose forward is a dated future. *)
Definition dated_currencies : list string := ["eth"; "btc"; "paxg_usdc"].

(** [get_underlying_price]: the instrument asked for is the perpetual or
    the dated future. *)
Definition get_underlying_price (v : Venue) (currency expiry_code : string)
  : option R :=
  let instrument_name :=
    if negb (Str.mem (Str.lower currency) dated_currencies)
    then currency ++ "-PERPETUAL"
    else currency ++ "-" ++ expiry_code in
  ticker v instrument_name.

(** [get_index_price] *)
Definition get_index_price (v : Venue) (currency : string) : option R :=
  index_price v (Utils.map_index_name currency).

(** [get_existing_futures]: the futures of the currency that are not
    perpetual.  Iterating over a failed fetch raises [TypeError]. *)
Definition get_existing_futures (v : Venue) (currency : string)
  : result (list string) :=
  match instruments v (Utils.map_currency currency) with
  | None => Raise TypeError
  | Some data =>
      Ok (filter (fun name => Str.contains currency name
                              && negb (Str.contains "PERP" name)) data)
  end.

(** [get_strike_iv_price_dict] *)
Definition get_strike_iv_price_dict (v : Venue) (currency expiry_code : string)
  : result (Dict.t quote * Dict.t quote) :=
  option_grid v (Utils.map_currency currency) expiry_code.

End Api.

(* ================================================================== *)
(** * scipy.interpolate.PchipInterpolator

    Library code, modelled after its algorithm: the derivatives at the
    knots are chosen by the PCHIP rule (weighted harmonic mean of the
    neighbouring slopes, zero where the slopes change sign, a three-point
    formula at the ends), and the curve is the cubic Hermite spline with
    these derivatives, stored as one cubic per interval in powers of the
    distance to the interval's left end. *)
(* ================================================================== *)

Module Pchip.

Local Open Scope R_scope.

(** [np.sign] *)
Definition sign (r : R) : R :=
  if Rlt_dec 0 r then 1 else if Rlt_dec r 0 then -1 else 0.

(** [np.diff] *)
Fixpoint diff (l : list R) : list R :=
  match l with
  | a :: ((b :: _) as r) => (b - a) :: diff r
  | _ => []
  end.

Fixpoint map2 (f : R -> R -> R) (l1 l2 : list R) : list R :=
  match l1, l2 with
  | a :: r1, b :: r2 => f a b :: map2 f r1 r2
  | _, _ => []
  end.

(** [x] is strictly increasing ([np.any(dx <= 0)] is false). *)
Fixpoint strictly_increasing (l : list R) : bool :=
  match l with
  | a :: ((b :: _) as r) => Np.Rltb a b && strictly_increasing r
  | _ => true
  end.

(** [_edge_case]: the one-sided three-point estimate at an end, limited
    to preserve the shape. *)
Definition edge_case (h0 h1 m0 m1 : R) : R :=
  let d := ((2 * h0 + h1) * m0 - h0 * m1) / (h0 + h1) in
  let mask := negb (Np.Reqb (sign d) (sign m0)) in
  let mask2 := negb (Np.Reqb (sign m0) (sign m1))
               && Np.Rltb (3 * Rabs m0) (Rabs d) in
  if mask then 0 else if mask2 then 3 * m0 else d.

(** The derivative at an interior knot, between the interval of length
    [h0] and slope [m0] and the interval of length [h1] and slope [m1]. *)
Definition interior_derivative (h0 h1 m0 m1 : R) : R :=
  let condition := negb (Np.Reqb (sign m1) (sign m0))
                   || Np.Reqb m1 0 || Np.Reqb m0 0 in
  let w1 := 2 * h1 + h0 in
  let w2 := h1 + 2 * h0 in
  let whmean := (w1 / m0 + w2 / m1) / (w1 + w2) in
  if condition then 0 else 1 / whmean.

Fixpoint interior_derivatives (hk mk : list R) : list R :=
  match hk, mk with
  | h0 :: ((h1 :: _) as hr), m0 :: ((m1 :: _) as mr) =>
      interior_derivative h0 h1 m0 m1 :: interior_derivatives hr mr
  | _, _ => []
  end.

(** [_find_derivatives] *)
Definition find_derivatives (x y : list R) : list R :=
  let hk := diff x in
  let mk := map2 Rdiv (diff y) hk in
  match mk with
  | [m] => [m; m]
  | _ =>
      let n := List.length mk in
      ([edge_case (nth 0 hk 0) (nth 1 hk 0) (nth 0 mk 0) (nth 1 mk 0)]
       ++ interior_derivatives hk mk
       ++ [edge_case (nth (n - 1) hk 0) (nth (n - 2) hk 0)
                     (nth (n - 1) mk 0) (nth (n - 2) mk 0)])%list
  end.

(** One interval of a [PPoly] of degree 3: the breakpoint at its left and
    the coefficients of the powers 3, 2, 1, 0. *)
Record piece : Type := {
  left_end : R;
  c0 : R;
  c1 : R;
  c2 : R;
  c3 : R
}.

(** [CubicHermiteSpline.__init__]: the coefficients of the interval from
    [(xa, ya)] with derivative [da] to [(xb, yb)] with derivative [db]. *)
Definition hermite_piece (xa xb ya yb da db : R) : piece :=
  let dx := xb - xa in
  let slope := (yb - ya) / dx in
  let t := (da + db - 2 * slope) / dx in
  {| left_end := xa;
     c0 := t / dx;
     c1 := (slope - da) / dx - t;
     c2 := da;
     c3 := ya |}.

Fixpoint hermite_pieces (x y dydx : list R) : list piece :=
  match x, y, dydx with
  | xa :: ((xb :: _) as xr), ya :: ((yb :: _) as yr), da :: ((db :: _) as dr) =>
      hermite_piece xa xb ya yb da db :: hermite_pieces xr yr dr
  | _, _, _ => []
  end.

(** The interpolator object: the pieces, the breakpoints and the
    [extrapolate] flag. *)
Record PPoly : Type := {
  pieces : list piece;
  breakpoints : list R;
  extrapolate : bool
}.

(** [PchipInterpolator(x, y, extrapolate=...)]; [prepare_input] raises
    [ValueError] unless there are at least two points, as many values as
    points, and the points increase strictly. *)
Definition PchipInterpolator (x y : list R) (extrapolate : bool) : result PPoly :=
  if (List.length x <? 2)%nat then Raise ValueError
  else if negb (List.length x =? List.length y)%nat then Raise ValueError
  else if negb (strictly_increasing x) then Raise ValueError
  else
    let dk := find_derivatives x y in
    Ok {| pieces := hermite_pieces x y dk;
          breakpoints := x;
          extrapolate := extrapolate |}.

(** The value of a piece at [xval]. *)
Definition eval_piece (p : piece) (xval : R) : R :=
  let s := xval - left_end p in
  c0 p * (s * s * s) + c1 p * (s * s) + c2 p * s + c3 p.

(** The search of the interval and the evaluation: the first interval
    whose right end is above [xval], and the last interval when there is
    none (the last interval is closed on the right).  A point on the left
    of the first breakpoint falls in the first interval. *)
Fixpoint eval_pieces (ps : list piece) (xval : R) : R :=
  match ps with
  | [] => 0
  | [p] => eval_piece p xval
  | p :: ((q :: _) as r) =>
      if Rlt_dec xval (left_end q) then eval_piece p xval
      else eval_pieces r xval
  end.

Definition out_of_bounds (bs : list R) (xval : R) : bool :=
  Np.Rltb xval (nth 0 bs 0) || Np.Rltb (last bs 0) xval.

(** [PPoly.__call__]: outside the breakpoints the end pieces are
    continued when [extrapolate] is set, and the value is NaN otherwise. *)
Definition call (f : PPoly) (xval : R) : float64 :=
  if out_of_bounds (breakpoints f) xval && negb (extrapolate f) then NaN
  else Fin (eval_pieces (pieces f) xval).

End Pchip.

(* ================================================================== *)
(** * pricing.py *)
(* ================================================================== *)

Module Pricing.

Local Open Scope string_scope.

(** [iv_interpolator]: the PCHIP curve through the (strike, IV) pairs of a
    dictionary that maps a strike to its (IV, price). *)
Definition iv_interpolator (strike_iv : Dict.t Api.quote) : result Pchip.PPoly :=
  let sorted_strikes_ivs := Dict.sorted_items strike_iv in
  let strikes := map (fun e : R * Api.quote => fst e) sorted_strikes_ivs in
  let implied_vols := map (fun e : R * Api.quote => fst (snd e)) sorted_strikes_ivs in
  Pchip.PchipInterpolator strikes implied_vols true.

(** [normalize_usd_price_to_currency] *)
Definition normalize_usd_price_to_currency
  (price : option float64) (index_price : option R) : option float64 :=
  match price, index_price with
  | Some p, Some i => Some (Np.round4 (Np.div p (Fin i)))
  | _, _ => None
  end.

(** ** The synthetic future *)

(** Which branch of the search chose the pair (not a value of the
    source: it records the [if] that assigned the variables). *)
Inductive branch : Type :=
| ExtrapolateBefore
| ExtrapolateAfter
| Interpolate.

(** The four variables the search assigns. *)
Record surrounding : Type := {
  taken : branch;
  prev_expiry_code : string;
  next_expiry_code : string;
  prev_expiry_date : Z;
  next_expiry_date : Z
}.

(** [existing_dates.sort(key=lambda x: x[1])]: a stable sort by date. *)
Fixpoint insert_by_date (e : string * Z) (l : list (string * Z)) : list (string * Z) :=
  match l with
  | [] => [e]
  | e' :: r =>
      if (snd e <=? snd e')%Z then e :: l else e' :: insert_by_date e r
  end.

Fixpoint sort_by_date (l : list (string * Z)) : list (string * Z) :=
  match l with
  | [] => []
  | e :: r => insert_by_date e (sort_by_date r)
  end.

(** [existing_dates[i]], with Python's negative indices written out by
    the caller. *)
Definition at_index (existing_dates : list (string * Z)) (i : nat) : string * Z :=
  nth i existing_dates ("", 0%Z).

(** The body of the [for] loop at index [i]: [Some] when an [if] branch
    assigns the variables and breaks, [None] when the loop goes on. *)
Definition search_step (existing_dates : list (string * Z)) (target_date : Z)
  (i : nat) : option surrounding :=
  let n := List.length existing_dates in
  let code (e : string * Z) := Str.split_last "-" (fst e) in
  if (target_date <? snd (at_index existing_dates 0))%Z then
    Some {| taken := ExtrapolateBefore;
            prev_expiry_code := code (at_index existing_dates 0);
            next_expiry_code := code (at_index existing_dates 1);
            prev_expiry_date := snd (at_index existing_dates 0);
            next_expiry_date := snd (at_index existing_dates 1) |}
  else if (snd (at_index existing_dates (n - 1)) <? target_date)%Z then
    Some {| taken := ExtrapolateAfter;
            prev_expiry_code := code (at_index existing_dates (n - 2));
            next_expiry_code := code (at_index existing_dates (n - 1));
            prev_expiry_date := snd (at_index existing_dates (n - 2));
            next_expiry_date := snd (at_index existing_dates (n - 1)) |}
  else if (target_date <? snd (at_index existing_dates i))%Z then
    Some {| taken := Interpolate;
            prev_expiry_code := code (at_index existing_dates (i - 1));
            next_expiry_code := code (at_index existing_dates i);
            prev_expiry_date := snd (at_index existing_dates (i - 1));
            next_expiry_date := snd (at_index existing_dates i) |}
  else None.

(** [for i in range ...: ... break]: the first index whose step breaks. *)
Fixpoint first_break {A : Type} (step : nat -> option A) (range : list nat) : option A :=
  match range with
  | [] => None
  | i :: r =>
      match step i with
      | Some a => Some a
      | None => first_break step r
      end
  end.

(** The whole loop, [for i in range(1, len(existing_dates))]. *)
Definition find_surrounding (existing_dates : list (string * Z)) (target_date : Z)
  : option surrounding :=
  first_break (search_step existing_dates target_date)
              (seq 1 (List.length existing_dates - 1)).

(** The interpolation formula; the quotient of the two day counts is
    Python's true division of integers. *)
Definition interpolation_formula
  (prev_future_price next_future_price : option R)
  (time_diff_target_prev time_diff_next_prev : Z) : result R :=
  if (time_diff_next_prev =? 0)%Z then Raise ZeroDivisionError
  else
    match prev_future_price, next_future_price with
    | Some p, Some n =>
        Ok (p + (IZR time_diff_target_prev / IZR time_diff_next_prev) * (n - p))%R
    | _, _ => Raise TypeError
    end.

(** [create_synthetic_future_price] *)
Definition create_synthetic_future_price
  (v : Api.Venue) (currency expiry_code : string) (existing_futures : list string)
  : result R :=
  let target_future := currency ++ "-" ++ expiry_code in
  (existing_dates <-
     mapM (fun future =>
             d <- Utils.convert_future_name_to_date future ;;
             Ok (future, d))
          existing_futures ;;
   target_date <- Utils.convert_future_name_to_date target_future ;;
   let existing_dates := sort_by_date existing_dates in
   match find_surrounding existing_dates target_date with
   | None => Raise UnboundLocalError
   | Some s =>
       let prev_future_price :=
         Api.get_underlying_price v currency (prev_expiry_code s) in
       let next_future_price :=
         Api.get_underlying_price v currency (next_expiry_code s) in
       let time_diff_target_prev := (target_date - prev_expiry_date s)%Z in
       let time_diff_next_prev := (next_expiry_date s - prev_expiry_date s)%Z in
       interpolation_formula prev_future_price next_future_price
                             time_diff_target_prev time_diff_next_prev
   end)%py.

(** ** Black-76 *)

Definition valid_option_type (option_type : string) : bool :=
  Str.mem option_type ["call"; "put"].

(** [d1] and [d2] of the source, on the values NumPy computes with. *)
Definition d1_of (F K T : R) (iv : float64) : float64 :=
  Np.div (Np.add (Np.log (Fin (F / K)))
                 (Np.mul (Np.mul (Fin (5 / 10)) (Np.mul iv iv)) (Fin T)))
         (Np.mul iv (Np.sqrt (Fin T))).

Definition d2_of (F K T : R) (iv : float64) : float64 :=
  Np.sub (d1_of F K T iv) (Np.mul iv (Np.sqrt (Fin T))).

(** [np.exp(-0 * T)] *)
Definition discount (T : R) : float64 := Fin (exp (- 0 * T)).

(** [price_black_76].  [F / K] divides two Python floats, which raises
    [ZeroDivisionError] when [K] is zero; a time to expiry that is [None]
    raises [TypeError] in the product; every other operation is NumPy's
    and does not raise.  The exceptions are caught and give [None]. *)
Definition price_black_76 (F K : R) (T : option R) (iv : float64)
  (option_type : string) : option float64 :=
  try_except_None
    (if negb (valid_option_type option_type) then Raise ValueError
     else if Req_dec_T K 0 then Raise ZeroDivisionError
     else
       match T with
       | None => Raise TypeError
       | Some T =>
           let d1 := d1_of F K T iv in
           let d2 := d2_of F K T iv in
           if String.eqb option_type "call" then
             Ok (Np.mul (discount T)
                        (Np.sub (Np.mul (Fin F) (Np.norm_cdf d1))
                                (Np.mul (Fin K) (Np.norm_cdf d2))))
           else if String.eqb option_type "put" then
             Ok (Np.mul (discount T)
                        (Np.sub (Np.mul (Fin K) (Np.norm_cdf (Np.neg d2)))
                                (Np.mul (Fin F) (Np.norm_cdf (Np.neg d1)))))
           else Raise ValueError
       end).

(** ** [price_option] *)

(** The name the forward is looked up under (lines 69 to 72). *)
Definition future_name_of (currency expiry_code : string) : string :=
  if negb (Str.mem (Str.lower currency) Api.dated_currencies)
  then currency ++ "-PERPETUAL"
  else currency ++ "-" ++ expiry_code.

(** The forward price (lines 74 to 77): synthetic when the dated future of
    a dated currency is not listed, fetched otherwise. *)
Definition resolve_future_price
  (v : Api.Venue) (currency expiry_code : string) (existing_futures : list string)
  : result (option R) :=
  let future_name := future_name_of currency expiry_code in
  if negb (Str.mem future_name existing_futures)
     && Str.mem (Str.lower currency) Api.dated_currencies
  then
    (p <- create_synthetic_future_price v currency expiry_code existing_futures ;;
     Ok (Some p))%py
  else Ok (Api.get_underlying_price v currency expiry_code).

(** [price_option]: every exception of the body is caught and gives
    [None]. *)
Definition price_option
  (v : Api.Venue) (now : R) (currency expiry_code : string) (strike : R)
  (option_type : string) (iv : float64) (existing_futures : list string)
  : option float64 :=
  try_except_None_opt
    (if negb (valid_option_type option_type) then Raise ValueError
     else
       let time_to_expiry := Utils.convert_expiration_to_years now expiry_code in
       (future_price <-
          resolve_future_price v currency expiry_code existing_futures ;;
        match future_price with
        | None => Raise ValueError
        | Some F => Ok (price_black_76 F strike time_to_expiry iv option_type)
        end)%py).

End Pricing.

(* ================================================================== *)
(** * main.py *)
(* ================================================================== *)

Module Main.

Local Open Scope string_scope.

(** The entry of [output_dict] for a strike. *)
Record cell : Type := {
  call_mark_price : option float64;
  deribit_call_mark_price : option R;
  put_mark_price : option float64;
  deribit_put_mark_price : option R
}.

(** [round(x, 4)]: [None] has no [__round__], which raises [TypeError]. *)
Definition round_builtin (x : option float64) : result float64 :=
  match x with
  | None => Raise TypeError
  | Some p => Ok (Np.round4 p)
  end.

(** [iv_fn(strike)]: calling [None] raises [TypeError]. *)
Definition call_iv_fn_at (iv_fn : option Pchip.PPoly) (strike : R) : result float64 :=
  match iv_fn with
  | None => Raise TypeError
  | Some f => Ok (Pchip.call f strike)
  end.

(** [process_strike]: returns [output_dict] with the strike's entry
    written. *)
Definition process_strike
  (v : Api.Venue) (now : R) (currency : string) (strike : R) (expiry_code : string)
  (standard_strikes : list R) (output_dict : Dict.t cell)
  (call_iv_fn put_iv_fn : option Pchip.PPoly)
  (calls_strike_iv puts_strike_iv : Dict.t Api.quote)
  (index_price : option R) (existing_futures : list string)
  : result (Dict.t cell) :=
  ('(call_iv, put_iv, call_mark_price_act, put_mark_price_act) <-
     (if Dict.mem_key strike standard_strikes then
        c <- Dict.get calls_strike_iv strike ;;
        p <- Dict.get puts_strike_iv strike ;;
        Ok (Fin (fst c), Fin (fst p), Some (snd c), Some (snd p))
      else
        call_iv <- call_iv_fn_at call_iv_fn strike ;;
        put_iv <- call_iv_fn_at put_iv_fn strike ;;
        Ok (call_iv, put_iv, None, None)) ;;
   let call_mark_price_pred :=
     Pricing.price_option v now currency expiry_code strike "call" call_iv
                          existing_futures in
   let put_mark_price_pred :=
     Pricing.price_option v now currency expiry_code strike "put" put_iv
                          existing_futures in
   '(call_pred, put_pred) <-
     (if Str.mem (Str.lower currency) ["eth"; "btc"] then
        Ok (Pricing.normalize_usd_price_to_currency call_mark_price_pred index_price,
            Pricing.normalize_usd_price_to_currency put_mark_price_pred index_price)
      else
        c <- round_builtin call_mark_price_pred ;;
        p <- round_builtin put_mark_price_pred ;;
        Ok (Some c, Some p)) ;;
   Ok (Dict.set output_dict strike
         {| call_mark_price := call_pred;
            deribit_call_mark_price := call_mark_price_act;
            put_mark_price := put_pred;
            deribit_put_mark_price := put_mark_price_act |}))%py.

(** [asyncio.gather] over the strikes: the entries are written one strike
    after the other, and the first exception of a task is the outcome of
    the whole gathering. *)
Fixpoint gather_strikes
  (task : R -> Dict.t cell -> result (Dict.t cell))
  (strikes : list R) (output_dict : Dict.t cell) : result (Dict.t cell) :=
  match strikes with
  | [] => Ok output_dict
  | strike :: r =>
      (d <- task strike output_dict ;; gather_strikes task r d)%py
  end.

(** The parameters of a run that the loop reads. *)
Record Params : Type := {
  currency : string;
  expiry_code : string;
  strikes : list R
}.

(** What the initialisation leaves for the cycles. *)
Record Init : Type := {
  standard_strikes : list R;
  existing_futures : list string;
  number_of_iterations : Z;
  iv_interpolation_needed : bool
}.

(** One iteration of the loop up to the call of [utils.save]: the fresh
    quotes, the index price, the curves when they are needed, the
    strikes.  The result is the [output_dict] handed to [utils.save]. *)
Definition cycle (v : Api.Venue) (now : R) (p : Params) (i : Init)
  : result (Dict.t cell) :=
  ('(call_strike_iv_price_dict, put_strike_iv_price_dict) <-
     Api.get_strike_iv_price_dict v (currency p) (expiry_code p) ;;
   let index_price := Api.get_index_price v (currency p) in
   '(call_iv_fn, put_iv_fn) <-
     (if iv_interpolation_needed i then
        c <- Pricing.iv_interpolator call_strike_iv_price_dict ;;
        q <- Pricing.iv_interpolator put_strike_iv_price_dict ;;
        Ok (Some c, Some q)
      else Ok (None, None)) ;;
   gather_strikes
     (fun strike output_dict =>
        process_strike v now (currency p) strike (expiry_code p)
                       (standard_strikes i) output_dict call_iv_fn put_iv_fn
                       call_strike_iv_price_dict put_strike_iv_price_dict
                       index_price (existing_futures i))
     (strikes p) [])%py.

(** How a run ends. *)
Inductive outcome : Type :=
| Completed
| Aborted (e : exn).

(** A run: the dictionaries saved, one per completed cycle and in order,
    and how the run ended. *)
Record run : Type := {
  saved : list (Dict.t cell);
  status : outcome
}.

(** The venue and the clock over a run: index 0 is the initialisation,
    index [k + 1] the cycle number [k]. *)
Record World : Type := {
  venue_at : nat -> Api.Venue;
  clock_at : nat -> R
}.

(** The [for] loop: [remaining] iterations from cycle [k] on. *)
Fixpoint cycles (w : World) (p : Params) (i : Init)
  (k remaining : nat) (saved_so_far : list (Dict.t cell)) : run :=
  match remaining with
  | O => {| saved := saved_so_far; status := Completed |}
  | S remaining' =>
      match cycle (venue_at w (S k)) (clock_at w (S k)) p i with
      | Raise e => {| saved := saved_so_far; status := Aborted e |}
      | Ok output_dict =>
          cycles w p i (S k) remaining' (saved_so_far ++ [output_dict])%list
      end
  end.

(** The part of [main_loop] before the loop.  [int(t1 / t2)] truncates
    the quotient towards zero (the float quotient of two integers below
    2^53 truncates to the integer quotient) and raises
    [ZeroDivisionError] when [t2] is zero. *)
Definition initialise (v : Api.Venue) (p : Params) (t1 t2 : Z) : result Init :=
  ('(call_strike_iv_price_dict, _) <-
     Api.get_strike_iv_price_dict v (currency p) (expiry_code p) ;;
   let standard_strikes := Dict.keys call_strike_iv_price_dict in
   existing_futures <- Api.get_existing_futures v (currency p) ;;
   number_of_iterations <-
     (if (t2 =? 0)%Z then Raise ZeroDivisionError else Ok (Z.quot t1 t2)) ;;
   let iv_interpolation_needed :=
     existsb (fun s => negb (Dict.mem_key s standard_strikes)) (strikes p) in
   Ok {| standard_strikes := standard_strikes;
         existing_futures := existing_futures;
         number_of_iterations := number_of_iterations;
         iv_interpolation_needed := iv_interpolation_needed |})%py.

(** [main_loop] *)
Definition main_loop (w : World) (p : Params) (t1 t2 : Z) : run :=
  match initialise (venue_at w 0) p t1 t2 with
  | Raise e => {| saved := []; status := Aborted e |}
  | Ok i => cycles w p i 0 (Z.to_nat (number_of_iterations i)) []
  end.

(** The currencies the command line accepts. *)
Definition supported_currencies : list string :=
  ["BTC"; "ETH"; "SOL_USDC"; "XRP_USDC"; "BNB_USDC"; "PAXG_USDC"].

(** How the program ends: [parser.error] before anything is fetched, or
    the run of [main_loop]. *)
Inductive exit : Type :=
| UsageError
| Ran (r : run).

(** The [__main__] block after the parsing of the arguments. *)
Definition main (w : World) (p : Params) (t1 t2 : Z) : exit :=
  if negb (Str.mem (Str.upper (currency p)) supported_currencies)
  then UsageError
  else Ran (main_loop w p t1 t2).

End Main.

(* ================================================================== *)
(** * api_requests.py: the retry loop of [fetch_data] *)
(* ================================================================== *)

Module Transport.

(** What one attempt gives: an exception raised by the request or by the
    decoding of the body, or a response with its status and, when the
    body has one, its ["result"] field. *)
Inductive response (A : Type) : Type :=
| Exception
| Http (status : Z) (result : option A).

Arguments Exception {A}.
Arguments Http {A} status result.

(** The test that makes [fetch_data] return: status 200 and a body with
    a ["result"] field. *)
Definition accepted {A : Type} (r : response A) : option A :=
  match r with
  | Http status (Some x) => if (status =? 200)%Z then Some x else None
  | _ => None
  end.

(** The loop [for attempt in range(retries)], from the attempt number
    [attempt] with [remaining] attempts left.  [responses k] is what the
    venue answers to the request number [k].  Returns the outcome and the
    number of requests sent so far. *)
Fixpoint fetch_from {A : Type} (responses : nat -> response A)
  (attempt remaining : nat) : option A * nat :=
  match remaining with
  | O => (None, attempt)
  | S remaining' =>
      match accepted (responses attempt) with
      | Some x => (Some x, S attempt)
      | None => fetch_from responses (S attempt) remaining'
      end
  end.

(** [fetch_data]: the ["result"] of the first accepted response, or
    [None] after [retries] attempts; with the number of requests sent. *)
Definition fetch_data {A : Type} (responses : nat -> response A) (retries : nat)
  : option A * nat :=
  fetch_from responses 0 retries.

End Transport.

(* ================================================================== *)
(** * utils.py: the rows of [save] *)
(* ================================================================== *)

Module Save.

Local Open Scope string_scope.

(** A row of the table. *)
Record row : Type := {
  timestamp : string;
  strike_price : R;
  option_type : string;
  deribit_mark_price : option R;
  computed_mark_price : option float64
}.

(** The two rows of a strike, the call and then the put. *)
Definition rows_of_strike (timestamp : string) (e : R * Main.cell) : list row :=
  [ {| timestamp := timestamp;
       strike_price := fst e;
       option_type := "call";
       deribit_mark_price := Main.deribit_call_mark_price (snd e);
       computed_mark_price := Main.call_mark_price (snd e) |};
    {| timestamp := timestamp;
       strike_price := fst e;
       option_type := "put";
       deribit_mark_price := Main.deribit_put_mark_price (snd e);
       computed_mark_price := Main.put_mark_price (snd e) |} ].

(** [save], up to the table handed to pandas: the rows of
    [sorted(output_dict.items())], all with the time of the call. *)
Definition rows (timestamp : string) (output_dict : Dict.t Main.cell) : list row :=
  flat_map (rows_of_strike timestamp) (Dict.sorted_items output_dict).

End Save.

(* ================================================================== *)
(** * api_requests.py: the option grid of [get_strike_iv_price_dict] *)
(* ================================================================== *)

Module Book.

Local Open Scope string_scope.

(** What the function can raise: the exceptions of [Py], and
    [IndexError] from [split("-")[-2]]. *)
Inductive raised : Type :=
| IndexError
| Builtin (e : exn).

(** A computation of this module: a value or an exception. *)
Inductive outcome (A : Type) : Type :=
| Returned (a : A)
| Failed (e : raised).

Arguments Returned {A} a.
Arguments Failed {A} e.

Definition and_then {A B : Type} (m : outcome A) (k : A -> outcome B)
  : outcome B :=
  match m with
  | Returned a => k a
  | Failed e => Failed e
  end.

Definition of_result {A : Type} (m : result A) : outcome A :=
  match m with
  | Ok a => Returned a
  | Raise e => Failed (Builtin e)
  end.

(** [s.split(sep)] for a one-character separator; [acc] is the segment
    read so far. *)
Fixpoint split_from (sep : ascii) (acc s : string) : list string :=
  match s with
  | EmptyString => [acc]
  | String c r =>
      if Ascii.eqb c sep then acc :: split_from sep EmptyString r
      else split_from sep (acc ++ String c EmptyString) r
  end.

Definition split (sep : ascii) (s : string) : list string :=
  split_from sep EmptyString s.

(** [l[-2]]: raises [IndexError] on fewer than two elements. *)
Definition penultimate (l : list string) : outcome string :=
  if (2 <=? List.length l)%nat then
    match nth_error l (List.length l - 2) with
    | Some s => Returned s
    | None => Failed IndexError
    end
  else Failed IndexError.

(** An item of the book summary: the fields the function reads.
    [None] is JSON's [null]. *)
Record item : Type := {
  instrument_name : string;
  mark_iv : option R;
  mark_price : option R
}.

(** An element of [filtered]. *)
Record option_entry : Type := {
  entry_name : string;
  entry_mark_iv : R;
  entry_mark_price : option R;
  strike : R;
  option_type : string
}.

(** [round(x, 4)] of a float. *)
Definition round4 (x : R) : R :=
  (IZR (Np.round_half_even (x * 10000)) / 10000)%R.

Section Grid.

(** [utils.process_strike], which is [float(strike.replace('d', '.'))],
    on the texts that read as a finite number or as none. *)
Variable process_strike : string -> result R.

(** The body of the first loop for one item: the element appended to
    [filtered], if any. *)
Definition filter_item (expiry_code : string) (it : item)
  : outcome (option option_entry) :=
  if Str.contains expiry_code (instrument_name it) then
    match mark_iv it with
    | None => Returned None
    | Some iv =>
        let parts := split "-" (instrument_name it) in
        and_then (penultimate parts) (fun s =>
        and_then (of_result (process_strike s)) (fun k =>
        Returned (Some {| entry_name := instrument_name it;
                          entry_mark_iv := (iv / 100)%R;
                          entry_mark_price := mark_price it;
                          strike := k;
                          option_type := List.last parts EmptyString |})))
    end
  else Returned None.

(** The first loop. *)
Fixpoint collect (expiry_code : string) (data : list item)
  : outcome (list option_entry) :=
  match data with
  | [] => Returned []
  | it :: r =>
      and_then (filter_item expiry_code it) (fun o =>
      and_then (collect expiry_code r) (fun es =>
      Returned (match o with
                | Some e => e :: es
                | None => es
                end)))
  end.

(** The second loop, from the dictionaries built so far.  [round] of a
    price that is [None] raises [TypeError]. *)
Fixpoint fill (filtered : list option_entry)
  (calls_dict puts_dict : Dict.t Api.quote)
  : outcome (Dict.t Api.quote * Dict.t Api.quote) :=
  match filtered with
  | [] => Returned (calls_dict, puts_dict)
  | o :: r =>
      match entry_mark_price o with
      | None => Failed (Builtin TypeError)
      | Some price =>
          let q := (entry_mark_iv o, round4 price) in
          if String.eqb (option_type o) "C"
          then fill r (Dict.set calls_dict (strike o) q) puts_dict
          else fill r calls_dict (Dict.set puts_dict (strike o) q)
      end
  end.

(** [get_strike_iv_price_dict], from what [fetch_data] returned ([None]
    after its retries: the loop over it raises [TypeError]). *)
Definition get_strike_iv_price_dict (data : option (list item))
  (expiry_code : string) : outcome (Dict.t Api.quote * Dict.t Api.quote) :=
  match data with
  | None => Failed (Builtin TypeError)
  | Some items =>
      and_then (collect expiry_code items) (fun filtered =>
      fill filtered [] [])
  end.

End Grid.

End Book.

(* ================================================================== *)
(** * Sample venues and grids *)
(* ================================================================== *)

Local Open Scope string_scope.

(** A venue that quotes the perpetual of PAXG_USDC at 3000 and two dated
    futures of it at 3000 and 3091. *)
Definition paxg_venue : Api.Venue :=
  {| Api.ticker := fun name =>
       if String.eqb name "PAXG_USDC-PERPETUAL" then Some 3000%R
       else if String.eqb name "PAXG_USDC-27JUN25" then Some 3000%R
       else if String.eqb name "PAXG_USDC-26SEP25" then Some 3091%R
       else None;
     Api.index_price := fun _ => None;
     Api.instruments := fun _ => None;
     Api.option_grid := fun _ _ => Raise TypeError |}.

(** A venue with an empty option grid and no future, at every moment. *)
Definition idle_world : Main.World :=
  {| Main.venue_at := fun _ =>
       {| Api.ticker := fun _ => None;
          Api.index_price := fun _ => None;
          Api.instruments := fun _ => Some [];
          Api.option_grid := fun _ _ => Ok ([], []) |};
     Main.clock_at := fun _ => 0%R |}.

(** A venue that lists SOL_USDC options at the strike 150 and answers no
    ticker. *)
Definition unquoted_world : Main.World :=
  {| Main.venue_at := fun _ =>
       {| Api.ticker := fun _ => None;
          Api.index_price := fun _ => Some 150%R;
          Api.instruments := fun _ => Some [];
          Api.option_grid := fun _ _ =>
            Ok ([(150%R, ((8 / 10)%R, 5%R))], [(150%R, ((8 / 10)%R, 4%R))]) |};
     Main.clock_at := fun _ => 0%R |}.

(** A venue that quotes two BTC futures, one week apart, at 100000 and
    101000. *)
Definition weekly_venue : Api.Venue :=
  {| Api.ticker := fun name =>
       if String.eqb name "BTC-2MAY25" then Some 100000%R
       else if String.eqb name "BTC-9MAY25" then Some 101000%R
       else None;
     Api.index_price := fun _ => Some 100000%R;
     Api.instruments := fun _ => Some ["BTC-2MAY25"; "BTC-9MAY25"];
     Api.option_grid := fun _ _ => Ok ([], []) |}.

(** A venue that quotes the BTC futures dated 10 and 20 days after
    1 May 2025 at 100000 and 101000. *)
Definition scenario_venue : Api.Venue :=
  {| Api.ticker := fun name =>
       if String.eqb name "BTC-11MAY25" then Some 100000%R
       else if String.eqb name "BTC-21MAY25" then Some 101000%R
       else None;
     Api.index_price := fun _ => Some 100000%R;
     Api.instruments := fun _ => Some ["BTC-11MAY25"; "BTC-21MAY25"];
     Api.option_grid := fun _ _ => Ok ([], []) |}.

(** The grid of the scenario extended with a second strike. *)
Definition two_strike_grid : Dict.t Api.quote :=
  [(50000%R, ((55 / 100)%R, 1200%R)); (48000%R, ((60 / 100)%R, 2100%R))].

(** The venue lists the strikes 48000 and 50000 during the
    initialisation and the first cycle, and only the strike 50000 from the
    second cycle on; it answers no ticker. *)
Definition shrinking_world : Main.World :=
  {| Main.venue_at := fun k =>
       {| Api.ticker := fun _ => None;
          Api.index_price := fun _ => Some 100000%R;
          Api.instruments := fun _ => Some [];
          Api.option_grid := fun _ _ =>
            if (k <=? 1)%nat then Ok (two_strike_grid, two_strike_grid)
            else Ok ([(50000%R, ((55 / 100)%R, 1200%R))],
                     [(50000%R, ((55 / 100)%R, 1100%R))]) |};
     Main.clock_at := fun _ => 0%R |}.



(* ================================================================== *)
(** * Vocabulary of the statements *)
(* ================================================================== *)

(** The order of the dated futures. *)
Definition by_date (a b : string * Z) : Prop := (snd a <= snd b)%Z.

(** The order of the items of a dictionary. *)
Definition by_key {V : Type} (a b : R * V) : Prop := (fst a <= fst b)%R.

(** The entry of the sorted list that the search reads as
    [(code, date)]. *)
Definition code_at (l : list (string * Z)) (i : nat) : string :=
  Str.split_last "-" (fst (Pricing.at_index l i)).

Definition date_at (l : list (string * Z)) (i : nat) : Z :=
  snd (Pricing.at_index l i).

(** The assignment of a branch at the entries [i - 1] and [i]. *)
Definition pair_at (b : Pricing.branch) (l : list (string * Z)) (i : nat)
  : Pricing.surrounding :=
  {| Pricing.taken := b;
     Pricing.prev_expiry_code := code_at l (i - 1);
     Pricing.next_expiry_code := code_at l i;
     Pricing.prev_expiry_date := date_at l (i - 1);
     Pricing.next_expiry_date := date_at l i |}.

(** The dated list the resolver builds from the names of the futures. *)
Definition dated_futures (existing_futures : list string)
  : result (list (string * Z)) :=
  mapM (fun future =>
          (d <- Utils.convert_future_name_to_date future ;; Ok (future, d))%py)
       existing_futures.

(** The formula applied to the entries [i - 1] and [i] of the sorted
    list. *)
Definition blend (v : Api.Venue) (currency : string)
  (l : list (string * Z)) (t : Z) (i : nat) : result R :=
  Pricing.interpolation_formula
    (Api.get_underlying_price v currency (code_at l (i - 1)))
    (Api.get_underlying_price v currency (code_at l i))
    (t - date_at l (i - 1)) (date_at l i - date_at l (i - 1)).



(** ** The option grid *)

(** The item competes for the entry of the strike [k] on the call side
    ([call = true]) or on the put side. *)
Definition competes (process_strike : string -> result R) (expiry_code : string)
  (it : Book.item) (k : R) (call : bool) : Prop :=
  exists e,
    Book.filter_item process_strike expiry_code it = Book.Returned (Some e)
    /\ Book.strike e = k
    /\ String.eqb (Book.option_type e) "C" = call.

(** The item competes and its quote is [q]. *)
Definition quoted (process_strike : string -> result R) (expiry_code : string)
  (it : Book.item) (k : R) (call : bool) (q : Api.quote) : Prop :=
  exists e price,
    Book.filter_item process_strike expiry_code it = Book.Returned (Some e)
    /\ Book.strike e = k
    /\ String.eqb (Book.option_type e) "C" = call
    /\ Book.entry_mark_price e = Some price
    /\ q = (Book.entry_mark_iv e, Book.round4 price).

(** [q] is the quote of the last item of the list that competes. *)
Definition last_listed (process_strike : string -> result R)
  (expiry_code : string) (items : list Book.item) (k : R) (call : bool)
  (q : Api.quote) : Prop :=
  exists l1 it l2,
    items = (l1 ++ it :: l2)%list
    /\ quoted process_strike expiry_code it k call q
    /\ forall it', In it' l2 -> ~ competes process_strike expiry_code it' k call.

(** The element of [filtered] is written at the strike [k] of the side
    [call]. *)
Definition hits (k : R) (call : bool) (e : Book.option_entry) : Prop :=
  Book.strike e = k /\ String.eqb (Book.option_type e) "C" = call.

(** The side of the dictionaries a flag selects. *)
Definition side (call : bool) (cp : Dict.t Api.quote * Dict.t Api.quote)
  : Dict.t Api.quote :=
  if call then fst cp else snd cp.

(** The text holds no [-]. *)
Definition dash_free (s : string) : bool :=
  forallb (fun c => negb (Ascii.eqb c "-")) (list_ascii_of_string s).

(* ================================================================== *)
(** * Lemmas *)
(* ================================================================== *)

(** Decides the comparisons of real constants met in a goal. *)
Ltac real_cases :=
  repeat match goal with
    | |- context [Req_dec_T ?a ?b] =>
        destruct (Req_dec_T a b); [try (exfalso; lra) | try (exfalso; lra)]
    | |- context [Rlt_dec ?a ?b] =>
        destruct (Rlt_dec a b); [try (exfalso; lra) | try (exfalso; lra)]
    | |- context [Rle_dec ?a ?b] =>
        destruct (Rle_dec a b); [try (exfalso; lra) | try (exfalso; lra)]
    end.

(** ** Lists, results and sorting *)

Lemma mapM_length {A B : Type} (f : A -> result B) (l : list A) (bs : list B) :
  mapM f l = Ok bs -> List.length bs = List.length l.
Proof.
  revert bs. induction l as [| a r IH]; intros bs H; simpl in H.
  - inversion H. reflexivity.
  - destruct (f a) as [b | e]; simpl in H; [ | discriminate].
    destruct (mapM f r) as [bs' | e]; simpl in H; [ | discriminate].
    inversion H. simpl. f_equal. apply IH. reflexivity.
Qed.

Lemma insert_by_date_length (e : string * Z) (l : list (string * Z)) :
  List.length (Pricing.insert_by_date e l) = S (List.length l).
Proof.
  induction l as [| e' r IH]; simpl; [reflexivity | ].
  destruct (snd e <=? snd e')%Z; simpl; [reflexivity | ]. now rewrite IH.
Qed.

Lemma sort_by_date_length (l : list (string * Z)) :
  List.length (Pricing.sort_by_date l) = List.length l.
Proof.
  induction l as [| e r IH]; simpl; [reflexivity | ].
  now rewrite insert_by_date_length, IH.
Qed.

Section Surrounding.

Local Open Scope Z_scope.

Lemma insert_by_date_perm (e : string * Z) (l : list (string * Z)) :
  Permutation (e :: l) (Pricing.insert_by_date e l).
Proof.
  induction l as [| e' r IH]; simpl; [apply Permutation_refl | ].
  destruct (snd e <=? snd e'); [apply Permutation_refl | ].
  eapply perm_trans; [apply perm_swap | ]. now apply perm_skip.
Qed.

Lemma sort_by_date_perm (l : list (string * Z)) :
  Permutation l (Pricing.sort_by_date l).
Proof.
  induction l as [| e r IH]; simpl; [apply perm_nil | ].
  eapply perm_trans; [apply perm_skip, IH | apply insert_by_date_perm].
Qed.

Lemma insert_by_date_sorted (e : string * Z) (l : list (string * Z)) :
  StronglySorted by_date l -> StronglySorted by_date (Pricing.insert_by_date e l).
Proof.
  induction l as [| e' r IH]; intros Hs; simpl.
  - constructor; [constructor | constructor].
  - inversion Hs as [| ? ? Hr Hall]; subst.
    destruct (snd e <=? snd e') eqn:Hle.
    + apply Z.leb_le in Hle. constructor; [exact Hs | ].
      constructor; [exact Hle | ].
      eapply Forall_impl; [ | exact Hall]. intros a Ha. unfold by_date in *. lia.
    + apply Z.leb_gt in Hle. constructor; [now apply IH | ].
      eapply Permutation_Forall; [apply insert_by_date_perm | ].
      constructor; [unfold by_date; lia | exact Hall].
Qed.

Lemma sort_by_date_sorted (l : list (string * Z)) :
  StronglySorted by_date (Pricing.sort_by_date l).
Proof.
  induction l as [| e r IH]; simpl; [constructor | ].
  now apply insert_by_date_sorted.
Qed.

Lemma sorted_at_index (l : list (string * Z)) (i j : nat) :
  StronglySorted by_date l -> (i <= j)%nat -> (j < List.length l)%nat ->
  snd (Pricing.at_index l i) <= snd (Pricing.at_index l j).
Proof.
  unfold Pricing.at_index. intros Hs. revert i j.
  induction Hs as [| a l Hs IH Hall]; intros i j Hij Hj; simpl in Hj; [lia | ].
  destruct i as [| i], j as [| j]; simpl; try lia.
  - rewrite Forall_forall in Hall. apply (Hall (nth j l (""%string, 0))).
    apply nth_In. lia.
  - apply IH; lia.
Qed.

(** The first index of a range at which the step breaks. *)
Lemma first_break_none {A : Type} (step : nat -> option A) (range : list nat) :
  (forall i, In i range -> step i = None) ->
  Pricing.first_break step range = None.
Proof.
  induction range as [| i r IH]; intros H; simpl; [reflexivity | ].
  rewrite (H i) by now left. apply IH. intros j Hj. apply H. now right.
Qed.

Lemma first_break_seq {A : Type} (step : nat -> option A) (a len i : nat) (r : A) :
  (a <= i < a + len)%nat -> step i = Some r ->
  (forall j, (a <= j < i)%nat -> step j = None) ->
  Pricing.first_break step (seq a len) = Some r.
Proof.
  revert a. induction len as [| len IH]; intros a Hi Hs Hnone; [lia | ].
  simpl. destruct (Nat.eq_dec a i) as [-> | Hne].
  - now rewrite Hs.
  - rewrite (Hnone a) by lia. apply IH; [lia | exact Hs | ].
    intros j Hj. apply Hnone. lia.
Qed.

(** The least index of a range at which a test holds. *)
Lemma least_in_range (P : nat -> bool) (a b : nat) :
  (a <= b)%nat -> P b = true ->
  exists i, (a <= i <= b)%nat /\ P i = true
            /\ forall j, (a <= j < i)%nat -> P j = false.
Proof.
  remember (b - a)%nat as k eqn:Hk. revert a Hk.
  induction k as [| k IH]; intros a Hk Hab Hb.
  - assert (a = b) by lia. subst a. exists b. repeat split; try lia. exact Hb.
  - destruct (P a) eqn:Ha.
    + exists a. repeat split; try lia. exact Ha.
    + destruct (IH (S a)) as [i [Hi [HPi Hmin]]]; try lia; [exact Hb | ].
      exists i. repeat split; try lia; [exact HPi | ].
      intros j Hj. destruct (Nat.eq_dec j a) as [-> | Hne]; [exact Ha | ].
      apply Hmin. lia.
Qed.

(** ** The search of the surrounding futures *)

(** With fewer than two dated entries the loop has no iteration. *)
Lemma find_surrounding_short (existing_dates : list (string * Z)) (target_date : Z) :
  (List.length existing_dates < 2)%nat ->
  Pricing.find_surrounding existing_dates target_date = None.
Proof.
  intros H. unfold Pricing.find_surrounding.
  replace (List.length existing_dates - 1)%nat with 0%nat by lia. reflexivity.
Qed.

Lemma find_surrounding_before (l : list (string * Z)) (t : Z) :
  (2 <= List.length l)%nat -> t < date_at l 0 ->
  Pricing.find_surrounding l t = Some (pair_at Pricing.ExtrapolateBefore l 1).
Proof.
  intros Hn Ht. unfold Pricing.find_surrounding.
  apply first_break_seq with (i := 1%nat); [lia | | intros; lia].
  unfold Pricing.search_step. apply Z.ltb_lt in Ht. unfold date_at in Ht.
  rewrite Ht. reflexivity.
Qed.

Lemma find_surrounding_after (l : list (string * Z)) (t : Z) :
  (2 <= List.length l)%nat -> date_at l 0 <= t ->
  date_at l (List.length l - 1) < t ->
  Pricing.find_surrounding l t
  = Some (pair_at Pricing.ExtrapolateAfter l (List.length l - 1)).
Proof.
  intros Hn H0 Ht. unfold Pricing.find_surrounding.
  apply first_break_seq with (i := 1%nat); [lia | | intros; lia].
  unfold Pricing.search_step. apply Z.ltb_ge in H0. apply Z.ltb_lt in Ht.
  unfold date_at in H0, Ht. rewrite H0, Ht. unfold pair_at, code_at, date_at.
  replace (List.length l - 1 - 1)%nat with (List.length l - 2)%nat by lia.
  reflexivity.
Qed.

Lemma find_surrounding_between (l : list (string * Z)) (t : Z) :
  StronglySorted by_date l ->
  (2 <= List.length l)%nat -> date_at l 0 <= t ->
  t < date_at l (List.length l - 1) ->
  exists i, (1 <= i < List.length l)%nat
            /\ date_at l (i - 1) <= t < date_at l i
            /\ Pricing.find_surrounding l t = Some (pair_at Pricing.Interpolate l i).
Proof.
  intros Hs Hn H0 Ht.
  destruct (@least_in_range (fun i => t <? date_at l i) 1%nat (List.length l - 1)%nat)
    as [i [Hi [Hti Hmin]]]; [lia | now apply Z.ltb_lt | ].
  exists i. split; [lia | ]. apply Z.ltb_lt in Hti.
  assert (Hprev : date_at l (i - 1) <= t).
  { destruct (Nat.eq_dec i 1) as [-> | Hne]; [exact H0 | ].
    apply Z.ltb_ge, Hmin. lia. }
  split; [lia | ].
  unfold Pricing.find_surrounding.
  assert (Hstep : forall j, Pricing.search_step l t j
                  = if t <? date_at l j then Some (pair_at Pricing.Interpolate l j)
                    else None).
  { intros j. unfold Pricing.search_step.
    apply Z.ltb_ge in H0. unfold date_at in H0. rewrite H0.
    assert (Hl : (snd (Pricing.at_index l (List.length l - 1)) <? t) = false)
      by (apply Z.ltb_ge; unfold date_at in Ht; lia).
    rewrite Hl. reflexivity. }
  apply first_break_seq with (i := i); [lia | | ].
  - rewrite Hstep. apply Z.ltb_lt in Hti. now rewrite Hti.
  - intros j Hj. rewrite Hstep, Hmin by lia. reflexivity.
Qed.

Lemma find_surrounding_at_last (l : list (string * Z)) (t : Z) :
  StronglySorted by_date l ->
  (2 <= List.length l)%nat ->
  t = date_at l (List.length l - 1) ->
  Pricing.find_surrounding l t = None.
Proof.
  intros Hs Hn Ht. unfold Pricing.find_surrounding.
  apply first_break_none. intros i Hi. apply in_seq in Hi.
  unfold Pricing.search_step.
  assert (H0 : (t <? snd (Pricing.at_index l 0)) = false).
  { apply Z.ltb_ge. subst t. apply sorted_at_index; [exact Hs | lia | lia]. }
  assert (H1 : (snd (Pricing.at_index l (List.length l - 1)) <? t) = false).
  { apply Z.ltb_ge. subst t. unfold date_at. lia. }
  assert (H2 : (t <? snd (Pricing.at_index l i)) = false).
  { apply Z.ltb_ge. subst t. apply sorted_at_index; [exact Hs | lia | lia]. }
  now rewrite H0, H1, H2.
Qed.

End Surrounding.

(** ** The synthetic future and the source of the forward *)

Lemma create_synthetic_short (v : Api.Venue) (currency expiry_code : string)
  (existing_futures : list string) :
  (List.length existing_futures < 2)%nat ->
  exists e, Pricing.create_synthetic_future_price v currency expiry_code
              existing_futures = Raise e.
Proof.
  intros H. unfold Pricing.create_synthetic_future_price.
  destruct (mapM _ existing_futures) as [eds | e] eqn:Hm; simpl; [ | now exists e].
  destruct (Utils.convert_future_name_to_date _) as [t | e]; simpl; [ | now exists e].
  rewrite find_surrounding_short; [now exists UnboundLocalError | ].
  rewrite sort_by_date_length, (mapM_length _ _ Hm). exact H.
Qed.

Lemma blend_value (v : Api.Venue) (currency : string)
  (l : list (string * Z)) (t : Z) (i : nat) (p n : R) :
  Api.get_underlying_price v currency (code_at l (i - 1)) = Some p ->
  Api.get_underlying_price v currency (code_at l i) = Some n ->
  date_at l i <> date_at l (i - 1) ->
  blend v currency l t i
  = Ok (p + (IZR (t - date_at l (i - 1))
             / IZR (date_at l i - date_at l (i - 1))) * (n - p))%R.
Proof.
  intros Hp Hn Hd. unfold blend, Pricing.interpolation_formula.
  rewrite Hp, Hn.
  destruct (Z.eqb_spec (date_at l i - date_at l (i - 1)) 0) as [H0 | H0];
    [lia | reflexivity].
Qed.

Lemma create_synthetic_unfold (v : Api.Venue) (currency expiry_code : string)
  (existing_futures : list string) (eds : list (string * Z)) (t : Z)
  (b : Pricing.branch) (i : nat) :
  dated_futures existing_futures = Ok eds ->
  Utils.convert_future_name_to_date (currency ++ "-" ++ expiry_code) = Ok t ->
  Pricing.find_surrounding (Pricing.sort_by_date eds) t
  = Some (pair_at b (Pricing.sort_by_date eds) i) ->
  Pricing.create_synthetic_future_price v currency expiry_code existing_futures
  = blend v currency (Pricing.sort_by_date eds) t i.
Proof.
  intros He Ht Hf. unfold Pricing.create_synthetic_future_price.
  unfold dated_futures in He. rewrite He. cbn [Py.bind]. rewrite Ht.
  cbn [Py.bind]. rewrite Hf. reflexivity.
Qed.

(** On the venue of the scenario the forward for 16 May, 15 days out, is
    100500. *)
Lemma scenario_forward :
  Pricing.create_synthetic_future_price scenario_venue "BTC" "16MAY25"
    ["BTC-11MAY25"; "BTC-21MAY25"] = Ok 100500%R.
Proof.
  replace (Pricing.create_synthetic_future_price scenario_venue "BTC" "16MAY25"
             ["BTC-11MAY25"; "BTC-21MAY25"])
    with (Ok (100000 + IZR 5 / IZR 10 * (101000 - 100000))%R : result R)
    by reflexivity.
  f_equal. lra.
Qed.

Lemma future_name_of_dated (currency expiry_code : string) :
  Str.mem (Str.lower currency) Api.dated_currencies = true ->
  Pricing.future_name_of currency expiry_code = currency ++ "-" ++ expiry_code.
Proof. intros H. unfold Pricing.future_name_of. now rewrite H. Qed.

(** [price_option] never raises: its outcome is a price or [None]; and
    when the price of the forward cannot be fetched it is [None]. *)
Lemma price_option_unquoted
  (v : Api.Venue) (now : R) (currency expiry_code : string) (strike : R)
  (option_type : string) (iv : float64) (existing_futures : list string) :
  Str.mem (Str.lower currency) Api.dated_currencies = false ->
  Api.ticker v (currency ++ "-PERPETUAL") = None ->
  Pricing.price_option v now currency expiry_code strike option_type iv
    existing_futures = None.
Proof.
  intros Hd Hq. unfold Pricing.price_option.
  destruct (Pricing.valid_option_type option_type); simpl; [ | reflexivity].
  unfold Pricing.resolve_future_price, Api.get_underlying_price.
  rewrite Hd, andb_false_r. simpl. rewrite Hq. reflexivity.
Qed.

(** ** The IV curve *)

Section Curve.

Local Open Scope R_scope.

Lemma insert_sorted_perm {V : Type} (e : R * V) (l : list (R * V)) :
  Permutation (e :: l) (Dict.insert_sorted e l).
Proof.
  induction l as [| e' r IH]; simpl; [apply Permutation_refl | ].
  destruct (Rle_dec (fst e) (fst e')); [apply Permutation_refl | ].
  eapply perm_trans; [apply perm_swap | ]. now apply perm_skip.
Qed.

Lemma sorted_items_perm {V : Type} (d : Dict.t V) :
  Permutation d (Dict.sorted_items d).
Proof.
  induction d as [| e r IH]; simpl; [apply perm_nil | ].
  eapply perm_trans; [apply perm_skip, IH | apply insert_sorted_perm].
Qed.

Lemma insert_sorted_sorted {V : Type} (e : R * V) (l : list (R * V)) :
  StronglySorted by_key l -> StronglySorted by_key (Dict.insert_sorted e l).
Proof.
  induction l as [| e' r IH]; intros Hs; simpl.
  - constructor; constructor.
  - inversion Hs as [| ? ? Hr Hall]; subst.
    destruct (Rle_dec (fst e) (fst e')) as [Hle | Hgt].
    + constructor; [exact Hs | ]. constructor; [exact Hle | ].
      eapply Forall_impl; [ | exact Hall]. intros a Ha. unfold by_key in *. lra.
    + constructor; [now apply IH | ].
      eapply Permutation_Forall; [apply insert_sorted_perm | ].
      constructor; [unfold by_key; lra | exact Hall].
Qed.

Lemma sorted_items_sorted {V : Type} (d : Dict.t V) :
  StronglySorted by_key (Dict.sorted_items d).
Proof.
  induction d as [| e r IH]; simpl; [constructor | ].
  now apply insert_sorted_sorted.
Qed.










End Curve.





Lemma two_strike_grid_wf : Dict.wf two_strike_grid.
Proof.
  unfold Dict.wf, two_strike_grid. simpl.
  constructor; [ | constructor; [ | constructor]].
  - intros [H | []]. lra.
  - intros [].
Qed.


(** ** The pricing model *)

Section Black76.

Local Open Scope R_scope.










End Black76.




(** ** The loop *)

Lemma cycles_saved_length (w : Main.World) (p : Main.Params) (i : Main.Init)
  (remaining k : nat) (saved_so_far : list (Dict.t Main.cell)) :
  (List.length (Main.saved (Main.cycles w p i k remaining saved_so_far))
   <= List.length saved_so_far + remaining)%nat.
Proof.
  revert k saved_so_far.
  induction remaining as [| n IH]; intros k saved_so_far; simpl; [lia | ].
  destruct (Main.cycle _ _ p i); simpl; [ | lia].
  specialize (IH (S k) (saved_so_far ++ [a])%list).
  rewrite length_app in IH. simpl in IH. lia.
Qed.

(** For a currency other than eth and btc, a leg whose price is [None]
    makes [process_strike] raise [TypeError]: [round] is applied to
    [None]. *)
Lemma process_strike_stablecoin_failure
  (v : Api.Venue) (now : R) (currency : string) (strike : R) (expiry_code : string)
  (standard_strikes : list R) (output_dict : Dict.t Main.cell)
  (call_iv_fn put_iv_fn : option Pchip.PPoly)
  (calls_strike_iv puts_strike_iv : Dict.t Api.quote)
  (index_price : option R) (existing_futures : list string)
  (c p : Api.quote) :
  Str.mem (Str.lower currency) ["eth"; "btc"] = false ->
  Dict.mem_key strike standard_strikes = true ->
  Dict.get calls_strike_iv strike = Ok c ->
  Dict.get puts_strike_iv strike = Ok p ->
  Pricing.price_option v now currency expiry_code strike "call" (Fin (fst c))
    existing_futures = None ->
  Main.process_strike v now currency strike expiry_code standard_strikes
    output_dict call_iv_fn put_iv_fn calls_strike_iv puts_strike_iv
    index_price existing_futures = Raise TypeError.
Proof.
  intros Hc Hs Hgc Hgp Hprice. unfold Main.process_strike.
  rewrite Hs, Hgc. cbn [Py.bind]. rewrite Hgp. cbn [Py.bind].
  rewrite Hc, Hprice. reflexivity.
Qed.

(* ================================================================== *)
(** * The claims *)
(* ================================================================== *)

(** C1 at the failing input.  The expiry code 09MAY25 names no listed
    future ([BTC-09MAY25] is not in the list) and its date is the date of
    the latest known future, so the last two futures bracket it
    ([2 May <= 9 May <= 9 May]).  The search assigns no pair: the
    construction raises [UnboundLocalError] and [price_option] returns
    [None] for every strike, kind and volatility. *)
Theorem C1_target_on_latest_date_assigns_no_pair :
  Str.mem "BTC-09MAY25" ["BTC-2MAY25"; "BTC-9MAY25"] = false
  /\ dated_futures ["BTC-2MAY25"; "BTC-9MAY25"]
     = Ok [("BTC-2MAY25", 739373%Z); ("BTC-9MAY25", 739380%Z)]
  /\ Utils.convert_future_name_to_date "BTC-09MAY25" = Ok 739380%Z
  /\ Pricing.create_synthetic_future_price weekly_venue "BTC" "09MAY25"
       ["BTC-2MAY25"; "BTC-9MAY25"] = Raise UnboundLocalError
  /\ forall now strike option_type iv,
       Pricing.price_option weekly_venue now "BTC" "09MAY25" strike option_type iv
         ["BTC-2MAY25"; "BTC-9MAY25"] = None.
Proof.
  split; [reflexivity | ]. split; [reflexivity | ]. split; [reflexivity | ].
  assert (H : Pricing.create_synthetic_future_price weekly_venue "BTC" "09MAY25"
                ["BTC-2MAY25"; "BTC-9MAY25"] = Raise UnboundLocalError)
    by reflexivity.
  split; [exact H | ].
  intros now strike option_type iv. unfold Pricing.price_option.
  destruct (Pricing.valid_option_type option_type); [ | reflexivity].
  cbn [negb]. unfold Pricing.resolve_future_price.
  replace (Pricing.future_name_of "BTC" "09MAY25") with "BTC-09MAY25" by reflexivity.
  replace (Str.mem "BTC-09MAY25" ["BTC-2MAY25"; "BTC-9MAY25"]) with false
    by reflexivity.
  replace (Str.mem (Str.lower "BTC") Api.dated_currencies) with true by reflexivity.
  cbn [negb andb]. rewrite H. reflexivity.
Qed.




(** C3 at the failing input: for SOL_USDC, with the forward unquoted, the
    first cycle raises [TypeError] and the run is aborted with nothing
    saved; for BTC the same venue gives two completed cycles whose cells
    are absent. *)
Theorem C3_failed_leg_aborts_stablecoin_run :
  Main.main_loop unquoted_world
    {| Main.currency := "SOL_USDC"; Main.expiry_code := "27JUN25";
       Main.strikes := [150%R] |} 10 5
  = {| Main.saved := []; Main.status := Main.Aborted TypeError |}
  /\ Main.main_loop unquoted_world
       {| Main.currency := "BTC"; Main.expiry_code := "27JUN25";
          Main.strikes := [150%R] |} 10 5
     = {| Main.saved :=
            let absent :=
              [(150%R, {| Main.call_mark_price := None;
                          Main.deribit_call_mark_price := Some 5%R;
                          Main.put_mark_price := None;
                          Main.deribit_put_mark_price := Some 4%R |})] in
            [absent; absent];
          Main.status := Main.Completed |}.
Proof.
  split.
  - unfold Main.main_loop, Main.initialise. simpl.
    unfold Main.cycle. simpl. real_cases. simpl.
    rewrite process_strike_stablecoin_failure
      with (c := ((8 / 10)%R, 5%R)) (p := ((8 / 10)%R, 4%R)); try reflexivity.
    + unfold Dict.mem_key. real_cases. reflexivity.
    + unfold Dict.get. real_cases. reflexivity.
    + unfold Dict.get. real_cases. reflexivity.
  - unfold Main.main_loop, Main.initialise. simpl.
    unfold Main.cycle, Main.process_strike. simpl.
    real_cases. simpl. reflexivity.
Qed.





(** C6, as stated, fails: for the expiry 15 days out (16 May) the
    resolver yields 100500, which is below the value
    [100000 + (15/10) * (101000 - 100000)] of the claim. *)
Lemma C6_counterexample :
  Pricing.create_synthetic_future_price scenario_venue "BTC" "16MAY25"
    ["BTC-11MAY25"; "BTC-21MAY25"] = Ok 100500%R
  /\ (100500 < 100000 + (15 / 10) * (101000 - 100000))%R.
Proof. split; [apply scenario_forward | lra]. Qed.

(** C6, amended.  With two futures dated 10 and 20 days after a day [d]
    and priced 100000 and 101000, a target [k] days after [d] is resolved
    - by the extrapolation branch before the curve when [k < 10],
    - by the interpolation branch when [10 <= k < 20],
    - by the extrapolation branch after the curve when [20 < k],
    each time with the same two entries, so that the forward is
    [100000 + ((k - 10) / 10) * (101000 - 100000)]; for 15 days this is
    [100000 + (5/10) * (101000 - 100000) = 100500].  On the venue of the
    scenario the resolver returns 100500 for 16 May. *)
Theorem C6_two_entry_curve (a b : string) (d k : Z) :
  let curve := [(a, d + 10); (b, d + 20)]%Z in
  let pair br := Some (pair_at br curve 1) in
  Pricing.sort_by_date curve = curve
  /\ Pricing.find_surrounding curve (d + k)
     = (if (k <? 10)%Z then pair Pricing.ExtrapolateBefore
        else if (20 <? k)%Z then pair Pricing.ExtrapolateAfter
        else if (k <? 20)%Z then pair Pricing.Interpolate
        else None)
  /\ Pricing.interpolation_formula (Some 100000%R) (Some 101000%R)
       (d + k - (d + 10)) (d + 20 - (d + 10))
     = Ok (100000 + (IZR (k - 10) / 10) * (101000 - 100000))%R
  /\ (100000 + (IZR (15 - 10) / 10) * (101000 - 100000) = 100500)%R
  /\ Pricing.create_synthetic_future_price scenario_venue "BTC" "16MAY25"
       ["BTC-11MAY25"; "BTC-21MAY25"] = Ok 100500%R.
Proof.
  intros curve pair. split; [ | split; [ | split; [ | split]]].
  - unfold curve. simpl. destruct (Z.leb_spec (d + 10) (d + 20)); [reflexivity | lia].
  - unfold Pricing.find_surrounding, Pricing.search_step, curve. simpl.
    replace (d + k <? d + 10)%Z with (k <? 10)%Z
      by (destruct (Z.ltb_spec k 10), (Z.ltb_spec (d + k) (d + 10)); lia).
    replace (d + 20 <? d + k)%Z with (20 <? k)%Z
      by (destruct (Z.ltb_spec 20 k), (Z.ltb_spec (d + 20) (d + k)); lia).
    replace (d + k <? d + 20)%Z with (k <? 20)%Z
      by (destruct (Z.ltb_spec k 20), (Z.ltb_spec (d + k) (d + 20)); lia).
    destruct (k <? 10)%Z; [reflexivity | ].
    destruct (20 <? k)%Z; [reflexivity | ].
    destruct (k <? 20)%Z; reflexivity.
  - unfold Pricing.interpolation_formula.
    replace (d + 20 - (d + 10))%Z with 10%Z by lia.
    replace (d + k - (d + 10))%Z with (k - 10)%Z by lia. reflexivity.
  - simpl. lra.
  - apply scenario_forward.
Qed.




(** C8, as stated, fails: PAXG_USDC is settled in the stablecoin
    ([map_currency] gives USDC) and its perpetual is quoted at 3000, yet
    its forward for 25JUL25 is interpolated between the two dated futures
    (28 of the 91 days from 3000 to 3091) and is 3028. *)
Lemma C8_counterexample :
  Utils.map_currency "PAXG_USDC" = "USDC"
  /\ Api.ticker paxg_venue "PAXG_USDC-PERPETUAL" = Some 3000%R
  /\ Pricing.resolve_future_price paxg_venue "PAXG_USDC" "25JUL25"
       ["PAXG_USDC-27JUN25"; "PAXG_USDC-26SEP25"] = Ok (Some 3028%R).
Proof.
  split; [reflexivity | split; [reflexivity | ]].
  unfold Pricing.resolve_future_price. 
  replace (Pricing.create_synthetic_future_price paxg_venue "PAXG_USDC" "25JUL25"
             ["PAXG_USDC-27JUN25"; "PAXG_USDC-26SEP25"])
    with (Ok (3000 + IZR 28 / IZR 91 * (3091 - 3000))%R : result R)
    by reflexivity.
  simpl. do 2 f_equal. field.
Qed.

(** C8, amended.  The forward is fetched under the perpetual name, with
    no interpolation and whatever the list of futures is, exactly for the
    currencies outside the list eth, btc, paxg_usdc (compared in lower
    case); a currency of the list uses its dated future, fetched when it
    is listed and synthesised from the curve otherwise.  Of the supported
    currencies, SOL_USDC, XRP_USDC and BNB_USDC are of the first kind and
    BTC, ETH and the stablecoin-settled PAXG_USDC of the second. *)
Theorem C8_forward_source
  (v : Api.Venue) (currency expiry_code : string) (existing_futures : list string) :
  Pricing.resolve_future_price v currency expiry_code existing_futures =
    (if Str.mem (Str.lower currency) Api.dated_currencies then
       if Str.mem (currency ++ "-" ++ expiry_code) existing_futures
       then Ok (Api.ticker v (currency ++ "-" ++ expiry_code))
       else (p <- Pricing.create_synthetic_future_price v currency expiry_code
                     existing_futures ;;
             Ok (Some p))%py
     else Ok (Api.ticker v (currency ++ "-PERPETUAL")))
  /\ map (fun c => Str.mem (Str.lower c) Api.dated_currencies)
         Main.supported_currencies
     = [true; true; false; false; false; true].
Proof.
  split; [ | reflexivity].
  unfold Pricing.resolve_future_price, Api.get_underlying_price.
  destruct (Str.mem (Str.lower currency) Api.dated_currencies) eqn:Hd.
  - rewrite (future_name_of_dated _ _ Hd).
    destruct (Str.mem (currency ++ "-" ++ expiry_code) existing_futures);
      reflexivity.
  - rewrite andb_false_r. reflexivity.
Qed.

(** C9, as stated, fails: with a duration of 1 second and an interval of
    2 seconds the quotient has no whole cycle, and the run is not
    aborted: it ends normally after no cycle. *)
Lemma C9_counterexample :
  Main.main idle_world
    {| Main.currency := "BTC"; Main.expiry_code := "27JUN25";
       Main.strikes := [100000%R] |} 1 2
  = Main.Ran {| Main.saved := []; Main.status := Main.Completed |}.
Proof. reflexivity. Qed.

(** C9, amended.  Of the run parameters only the currency is validated
    before the loop: a currency outside the supported set ends the program
    with a usage error before anything is fetched, and a supported one
    runs [main_loop].  The duration and the interval are not validated:
    once the initial quotes and the futures are fetched, an interval of
    zero aborts the run with [ZeroDivisionError], a quotient below one
    whole cycle ends the run normally after no cycle, and in every case at
    most [int(t1 / t2)] cycles are saved. *)
Theorem C9_only_the_currency_is_validated
  (w : Main.World) (p : Main.Params) (t1 t2 : Z) :
  (Str.mem (Str.upper (Main.currency p)) Main.supported_currencies = false ->
   Main.main w p t1 t2 = Main.UsageError)
  /\ (Str.mem (Str.upper (Main.currency p)) Main.supported_currencies = true ->
      Main.main w p t1 t2 = Main.Ran (Main.main_loop w p t1 t2))
  /\ (forall grid futures,
         Api.get_strike_iv_price_dict (Main.venue_at w 0) (Main.currency p)
           (Main.expiry_code p) = Ok grid ->
         Api.get_existing_futures (Main.venue_at w 0) (Main.currency p)
           = Ok futures ->
         (t2 = 0%Z ->
          Main.main_loop w p t1 t2
          = {| Main.saved := []; Main.status := Main.Aborted ZeroDivisionError |})
         /\ (t2 <> 0%Z -> (Z.quot t1 t2 < 1)%Z ->
             Main.main_loop w p t1 t2
             = {| Main.saved := []; Main.status := Main.Completed |})
         /\ (t2 <> 0%Z ->
             (List.length (Main.saved (Main.main_loop w p t1 t2))
              <= Z.to_nat (Z.quot t1 t2))%nat)).
Proof.
  split; [ | split].
  - intros H. unfold Main.main. now rewrite H.
  - intros H. unfold Main.main. now rewrite H.
  - intros [calls puts] futures Hg Hf.
    unfold Main.main_loop, Main.initialise. rewrite Hg. simpl. rewrite Hf. simpl.
    split; [ | split].
    + intros ->. reflexivity.
    + intros Hne Hlt. apply Z.eqb_neq in Hne. rewrite Hne. simpl.
      replace (Z.to_nat (Z.quot t1 t2)) with 0%nat by lia. reflexivity.
    + intros Hne. apply Z.eqb_neq in Hne. rewrite Hne. simpl.
      apply (cycles_saved_length w p _ (Z.to_nat (Z.quot t1 t2)) 0 []).
Qed.

(** C9 at a duration of 1 second and an interval of 2 seconds. *)
Lemma C9_witness :
  Main.main_loop idle_world
    {| Main.currency := "BTC"; Main.expiry_code := "27JUN25";
       Main.strikes := [100000%R] |} 1 2
  = {| Main.saved := []; Main.status := Main.Completed |}.
Proof.
  apply (proj1 (proj2 (proj2 (proj2 (@C9_only_the_currency_is_validated idle_world
           {| Main.currency := "BTC"; Main.expiry_code := "27JUN25";
              Main.strikes := [100000%R] |} 1 2))
           ([], []) [] eq_refl eq_refl))).
  - discriminate.
  - reflexivity.
Defined.

(** C10. For a currency of the dated list whose requested future is not
    listed, and with fewer than two known futures: the search loop assigns
    no pair whatever the dates are, the construction of the synthetic
    future raises, and [price_option] returns [None] for every strike and
    kind. *)
Theorem C10_too_few_futures_gives_absent
  (v : Api.Venue) (now : R) (currency expiry_code : string) (strike : R)
  (option_type : string) (iv : float64) (existing_futures : list string) :
  Str.mem (Str.lower currency) Api.dated_currencies = true ->
  Str.mem (currency ++ "-" ++ expiry_code) existing_futures = false ->
  (List.length existing_futures < 2)%nat ->
  (forall existing_dates target_date,
      List.length existing_dates = List.length existing_futures ->
      Pricing.find_surrounding existing_dates target_date = None)
  /\ (exists e, Pricing.create_synthetic_future_price v currency expiry_code
                  existing_futures = Raise e)
  /\ Pricing.price_option v now currency expiry_code strike option_type iv
       existing_futures = None.
Proof.
  intros Hdated Hunlisted Hshort. split; [ | split].
  - intros eds t Hlen. apply find_surrounding_short. now rewrite Hlen.
  - now apply create_synthetic_short.
  - unfold Pricing.price_option.
    destruct (Pricing.valid_option_type option_type); simpl; [ | reflexivity].
    unfold Pricing.resolve_future_price.
    rewrite (future_name_of_dated _ _ Hdated), Hunlisted, Hdated. simpl.
    destruct (create_synthetic_short v currency expiry_code _ Hshort) as [e ->].
    reflexivity.
Qed.

(** C10 for BTC with a single known future. *)
Lemma C10_witness :
  Pricing.price_option
    {| Api.ticker := fun _ => Some 100000%R;
       Api.index_price := fun _ => Some 100000%R;
       Api.instruments := fun _ => Some ["BTC-27JUN25"];
       Api.option_grid := fun _ _ => Ok ([], []) |}
    0%R "BTC" "25JUL25" 100000%R "call" (Fin (1 / 2)) ["BTC-27JUN25"] = None.
Proof.
  apply (C10_too_few_futures_gives_absent
           {| Api.ticker := fun _ => Some 100000%R;
              Api.index_price := fun _ => Some 100000%R;
              Api.instruments := fun _ => Some ["BTC-27JUN25"];
              Api.option_grid := fun _ _ => Ok ([], []) |}
           0%R "BTC" "25JUL25" 100000%R "call" (Fin (1 / 2)) ["BTC-27JUN25"]).
  - reflexivity.
  - reflexivity.
  - simpl. lia.
Defined.

(* ================================================================== *)
(** * Further properties *)
(* ================================================================== *)

(** The resolver, case by case.  When the names of the known futures and
    the target parse and there are at least two known futures, the list
    is sorted by date and
    - a target before the earliest date uses the first two entries;
    - a target after the latest date uses the last two;
    - a target from the earliest date on and before the latest uses the
      entries [i - 1] and [i] with [date (i - 1) <= target < date i];
    - a target on the latest date assigns no pair: the construction
      raises [UnboundLocalError]. *)
Theorem synthetic_future_by_cases
  (v : Api.Venue) (currency expiry_code : string)
  (existing_futures : list string) (eds : list (string * Z)) (t : Z) :
  dated_futures existing_futures = Ok eds ->
  Utils.convert_future_name_to_date (currency ++ "-" ++ expiry_code) = Ok t ->
  (2 <= List.length existing_futures)%nat ->
  let l := Pricing.sort_by_date eds in
  let n := List.length l in
  let price :=
    Pricing.create_synthetic_future_price v currency expiry_code existing_futures in
  StronglySorted by_date l /\ Permutation eds l
  /\ ((t < date_at l 0)%Z -> price = blend v currency l t 1)
  /\ ((date_at l (n - 1) < t)%Z -> price = blend v currency l t (n - 1))
  /\ ((date_at l 0 <= t < date_at l (n - 1))%Z ->
      exists i, (1 <= i < n)%nat
                /\ (date_at l (i - 1) <= t < date_at l i)%Z
                /\ price = blend v currency l t i)
  /\ (t = date_at l (n - 1) -> price = Raise UnboundLocalError).
Proof.
  intros He Ht Hlen l n price.
  assert (Hs : StronglySorted by_date l) by apply sort_by_date_sorted.
  assert (Hn : (2 <= n)%nat).
  { unfold n, l. rewrite sort_by_date_length.
    unfold dated_futures in He. now rewrite (mapM_length _ _ He). }
  assert (H0n : (date_at l 0 <= date_at l (n - 1))%Z)
    by (apply sorted_at_index; [exact Hs | lia | unfold n in *; lia]).
  split; [exact Hs | ]. split; [apply sort_by_date_perm | ].
  split; [ | split; [ | split]].
  - intros Hb. unfold price.
    eapply create_synthetic_unfold; eauto using find_surrounding_before.
  - intros Ha. unfold price.
    eapply create_synthetic_unfold; eauto.
    unfold n in *. apply find_surrounding_after; [exact Hn | lia | exact Ha].
  - intros [Hlo Hhi].
    destruct (find_surrounding_between Hs Hn Hlo Hhi) as [i [Hi [Hd Hf]]].
    exists i. split; [exact Hi | ]. split; [exact Hd | ]. unfold price.
    eapply create_synthetic_unfold; eauto.
  - intros Hlast. unfold price, Pricing.create_synthetic_future_price.
    unfold dated_futures in He. rewrite He. cbn [Py.bind]. rewrite Ht.
    cbn [Py.bind]. fold l. now rewrite (find_surrounding_at_last Hs Hn Hlast).
Qed.

(** The interpolation case on the venue of the scenario. *)
Lemma synthetic_future_by_cases_witness :
  exists i, (1 <= i < 2)%nat
    /\ Pricing.create_synthetic_future_price scenario_venue "BTC" "16MAY25"
         ["BTC-11MAY25"; "BTC-21MAY25"]
       = blend scenario_venue "BTC"
           [("BTC-11MAY25", 739382%Z); ("BTC-21MAY25", 739392%Z)] 739387 i.
Proof.
  destruct (@synthetic_future_by_cases scenario_venue "BTC" "16MAY25"
              ["BTC-11MAY25"; "BTC-21MAY25"]
              [("BTC-11MAY25", 739382%Z); ("BTC-21MAY25", 739392%Z)] 739387
              eq_refl eq_refl ltac:(simpl; lia))
    as (_ & _ & _ & _ & H & _).
  destruct H as [i [Hi [_ Hp]]].
  - unfold date_at, Pricing.at_index. simpl. lia.
  - exists i. split; [exact Hi | exact Hp].
Defined.

(** For eth and btc a leg that fails is an absent cell: when the strike
    is on the grid, [process_strike] does not raise and writes the entry
    of the strike, each price being the normalisation of the outcome of
    [price_option], which is [None] for a failed leg. *)
Theorem eth_btc_failed_leg_is_absent
  (v : Api.Venue) (now : R) (currency : string) (strike : R) (expiry_code : string)
  (standard_strikes : list R) (output_dict : Dict.t Main.cell)
  (call_iv_fn put_iv_fn : option Pchip.PPoly)
  (calls_strike_iv puts_strike_iv : Dict.t Api.quote)
  (index_price : option R) (existing_futures : list string)
  (c p : Api.quote) :
  Str.mem (Str.lower currency) ["eth"; "btc"] = true ->
  Dict.mem_key strike standard_strikes = true ->
  Dict.get calls_strike_iv strike = Ok c ->
  Dict.get puts_strike_iv strike = Ok p ->
  Main.process_strike v now currency strike expiry_code standard_strikes
    output_dict call_iv_fn put_iv_fn calls_strike_iv puts_strike_iv
    index_price existing_futures
  = Ok (Dict.set output_dict strike
          {| Main.call_mark_price :=
               Pricing.normalize_usd_price_to_currency
                 (Pricing.price_option v now currency expiry_code strike "call"
                    (Fin (fst c)) existing_futures) index_price;
             Main.deribit_call_mark_price := Some (snd c);
             Main.put_mark_price :=
               Pricing.normalize_usd_price_to_currency
                 (Pricing.price_option v now currency expiry_code strike "put"
                    (Fin (fst p)) existing_futures) index_price;
             Main.deribit_put_mark_price := Some (snd p) |})
  /\ Pricing.normalize_usd_price_to_currency None index_price = None.
Proof.
  intros Hc Hs Hgc Hgp. split; [ | reflexivity]. unfold Main.process_strike.
  rewrite Hs, Hgc. cbn [Py.bind]. rewrite Hgp. cbn [Py.bind].
  rewrite Hc. reflexivity.
Qed.

(** The BTC strike 150 on the venue that answers no ticker. *)
Lemma eth_btc_failed_leg_is_absent_witness :
  Main.process_strike (Main.venue_at unquoted_world 1) 0 "BTC" 150 "27JUN25"
    [150%R] [] None None
    [(150%R, ((8 / 10)%R, 5%R))] [(150%R, ((8 / 10)%R, 4%R))] (Some 150%R) []
  = Ok [(150%R, {| Main.call_mark_price := None;
                   Main.deribit_call_mark_price := Some 5%R;
                   Main.put_mark_price := None;
                   Main.deribit_put_mark_price := Some 4%R |})].
Proof.
  assert (H150 : forall (V : Type) (x : V),
             Dict.get [(150%R, x)] 150 = Ok x).
  { intros V x. simpl. destruct (Req_dec_T 150 150) as [_ | H];
      [reflexivity | now elim H]. }
  assert (Hmem : Dict.mem_key 150 [150%R] = true).
  { simpl. destruct (Req_dec_T 150 150) as [_ | H]; [reflexivity | now elim H]. }
  rewrite (proj1 (@eth_btc_failed_leg_is_absent
                    (Main.venue_at unquoted_world 1) 0 "BTC" 150 "27JUN25"
                    [150%R] [] None None
                    [(150%R, ((8 / 10)%R, 5%R))] [(150%R, ((8 / 10)%R, 4%R))]
                    (Some 150%R) [] ((8 / 10)%R, 5%R) ((8 / 10)%R, 4%R)
                    eq_refl Hmem (H150 _ _) (H150 _ _))).
  reflexivity.
Defined.

Section Black76More.

Local Open Scope R_scope.



End Black76More.







(** ** Characters and strings *)

Ltac all_chars c :=
  destruct c as [[] [] [] [] [] [] [] []]; try reflexivity; try discriminate.

Lemma upper_char_idem (c : ascii) :
  Str.upper_char (Str.upper_char c) = Str.upper_char c.
Proof. all_chars c. Qed.

Lemma upper_lower_char (c : ascii) :
  Str.upper_char (Str.lower_char c) = Str.upper_char c.
Proof. all_chars c. Qed.

Lemma upper_char_digit (c : ascii) :
  Str.is_digit_char (Str.upper_char c) = Str.is_digit_char c.
Proof. all_chars c. Qed.

Lemma digit_upper_char (c : ascii) :
  Str.is_digit_char c = true -> Str.upper_char c = c.
Proof. all_chars c. Qed.

Lemma upper_idem (s : string) : Str.upper (Str.upper s) = Str.upper s.
Proof.
  induction s as [| c r IH]; simpl; [reflexivity | ].
  now rewrite upper_char_idem, IH.
Qed.

Lemma upper_lower (s : string) : Str.upper (Str.lower s) = Str.upper s.
Proof.
  induction s as [| c r IH]; simpl; [reflexivity | ].
  now rewrite upper_lower_char, IH.
Qed.

Lemma upper_append (s t : string) :
  Str.upper (s ++ t) = Str.upper s ++ Str.upper t.
Proof. induction s as [| c r IH]; simpl; [reflexivity | now rewrite IH]. Qed.

(** The segment after the last separator does not see what precedes a
    separator. *)
Lemma last_segment_from_append (sep : ascii) (acc a e : string) :
  Str.last_segment_from sep acc (a ++ String sep e)
  = Str.last_segment_from sep EmptyString e.
Proof.
  revert acc. induction a as [| c r IH]; intros acc; simpl.
  - now rewrite Ascii.eqb_refl.
  - destruct (Ascii.eqb c sep); apply IH.
Qed.

(** The date of a future is read from the text after the last dash of
    its name: the currency (and anything else) before it plays no part. *)
Theorem future_date_ignores_prefix (prefix expiry : string) :
  Utils.convert_future_name_to_date (prefix ++ "-" ++ expiry)
  = Utils.convert_future_name_to_date expiry.
Proof.
  unfold Utils.convert_future_name_to_date, Str.split_last.
  change ("-" ++ expiry) with (String "-"%char expiry).
  now rewrite last_segment_from_append.
Qed.

(** The time to expiry does not depend on the case of the expiry code. *)
Theorem time_to_expiry_ignores_case (now : R) (expiration : string) :
  Utils.convert_expiration_to_years now (Str.upper expiration)
  = Utils.convert_expiration_to_years now expiration
  /\ Utils.convert_expiration_to_years now (Str.lower expiration)
     = Utils.convert_expiration_to_years now expiration.
Proof.
  unfold Utils.convert_expiration_to_years.
  now rewrite upper_idem, upper_lower.
Qed.



Lemma lower_upper_char (c : ascii) :
  Str.lower_char (Str.upper_char c) = Str.lower_char c.
Proof. all_chars c. Qed.

Lemma lower_upper (s : string) : Str.lower (Str.upper s) = Str.lower s.
Proof.
  induction s as [| c r IH]; simpl; [reflexivity | ].
  now rewrite lower_upper_char, IH.
Qed.

Lemma letter_upper_char (c : ascii) :
  Str.is_lower_char (Str.lower_char c) = true ->
  Str.is_upper_char (Str.upper_char c) = true.
Proof. all_chars c. Qed.

Lemma digit_char_round_trip (c : ascii) :
  Str.is_digit_char c = true ->
  ascii_of_nat (48 + Z.to_nat (Str.digit_val c)) = c.
Proof. all_chars c. Qed.

Lemma digit_val_range (c : ascii) :
  Str.is_digit_char c = true -> (0 <= Str.digit_val c <= 9)%Z.
Proof.
  unfold Str.is_digit_char, Str.digit_val. intros H.
  apply andb_true_iff in H. destruct H as [H1 H2].
  apply Nat.leb_le in H1, H2. lia.
Qed.

Lemma month_of_abbrev_upper (s : string) :
  Utils.month_of_abbrev (Str.upper s) = Utils.month_of_abbrev s.
Proof. unfold Utils.month_of_abbrev. now rewrite lower_upper. Qed.

(** A month abbreviation is made of three letters. *)
Lemma month_of_abbrev_letters (s : string) (m : Z) :
  Utils.month_of_abbrev s = Some m ->
  exists a b c, s = String a (String b (String c EmptyString))
    /\ Str.is_upper_char (Str.upper_char a) = true
    /\ Str.is_upper_char (Str.upper_char b) = true
    /\ Str.is_upper_char (Str.upper_char c) = true.
Proof.
  unfold Utils.month_of_abbrev. intros H.
  assert (Hl : exists x y z,
             Str.lower s = String x (String y (String z EmptyString))
             /\ Str.is_lower_char x = true /\ Str.is_lower_char y = true
             /\ Str.is_lower_char z = true).
  { repeat match type of H with
      | (if String.eqb ?t ?n then _ else _) = _ =>
          destruct (String.eqb_spec t n) as [-> | _];
          [do 3 eexists; split; [reflexivity | repeat split; reflexivity] | ]
      end.
    discriminate H. }
  destruct Hl as (x & y & z & Hs & Hx & Hy & Hz).
  destruct s as [| a [| b [| c [| ? ?]]]]; try discriminate Hs.
  simpl in Hs. injection Hs as <- <- <-.
  exists a, b, c. split; [reflexivity | ].
  repeat split; now apply letter_upper_char.
Qed.

(** On a code that [strptime] reads, and that does not start with a
    blank, the time to expiry is counted from 08:00 of the day that
    [strptime] gives: it is the number of seconds from the clock to that
    moment divided by the seconds of a year, and it is absent when that
    moment is passed.  So the time to expiry and the date used for the
    futures curve are read from the same day. *)
Theorem time_to_expiry_of_parsed_code (now : R) (expiration : string) (d : Z) :
  Utils.strptime_dby expiration = Ok d ->
  (forall r, expiration <> String " "%char r) ->
  Utils.convert_expiration_to_years now expiration
  = if Rlt_dec (IZR (d * 86400 + 8 * 3600) - now) 0 then None
    else Some ((IZR (d * 86400 + 8 * 3600) - now) / Utils.seconds_per_year)%R.
Proof.
  intros Hp Hblank.
  assert (Hnorm : exists day month year,
             Utils.match_expiry_pattern (Str.upper expiration)
             = Some (day, month, year)
             /\ Utils.strptime_dby
                  (Utils.format_02d (Utils.int_of_digits 0 day) ++ month ++ year)
                = Ok d).
  { unfold Utils.strptime_dby in Hp.
    destruct (Utils.parse_day_field expiration) as [[dd r] | ] eqn:Hday;
      [ | discriminate Hp].
    destruct (Utils.month_of_abbrev (String.substring 0 3 r)) as [m | ] eqn:Hm;
      [ | discriminate Hp].
    destruct (negb (String.length r =? 5)%nat) eqn:Hlen; [discriminate Hp | ].
    apply negb_false_iff, Nat.eqb_eq in Hlen.
    destruct r as [| a [| b [| c [| y1 [| y2 [| ? ?]]]]]]; try discriminate Hlen.
    cbn [String.substring] in Hm, Hp.
    destruct (Utils.parse_year_field (String y1 (String y2 EmptyString)))
      as [y | ] eqn:Hy; [ | discriminate Hp].
    destruct (month_of_abbrev_letters _ Hm) as (a' & b' & c' & Habc & Ha & Hb & Hc).
    injection Habc as <- <- <-.
    assert (Hy12 : Str.is_digit_char y1 = true /\ Str.is_digit_char y2 = true).
    { unfold Utils.parse_year_field in Hy.
      destruct (Str.is_digit_char y1), (Str.is_digit_char y2);
        try discriminate Hy. now split. }
    destruct Hy12 as [Hy1 Hy2].
    set (MON := String (Str.upper_char a) (String (Str.upper_char b)
                  (String (Str.upper_char c) EmptyString))).
    set (YEAR := String y1 (String y2 EmptyString)).
    assert (Hmon : Utils.month_of_abbrev MON = Some m).
    { change MON with (Str.upper (String a (String b (String c EmptyString)))).
      now rewrite month_of_abbrev_upper. }
    (* the day field *)
    unfold Utils.parse_day_field in Hday.
    destruct expiration as [| c1 [| c2 rest]]; try discriminate Hday.
    destruct (Str.is_digit_char c1) eqn:H1.
    - destruct (Str.is_digit_char c2) eqn:H2.
      + (* two digits *)
        cbn [andb] in Hday.
        destruct ((1 <=? 10 * Str.digit_val c1 + Str.digit_val c2)%Z
                  && (10 * Str.digit_val c1 + Str.digit_val c2 <=? 31)%Z) eqn:Hr;
          [ | discriminate Hday].
        injection Hday as <- ->.
        exists (String c1 (String c2 EmptyString)), MON, YEAR. split.
        * unfold Utils.match_expiry_pattern. cbn [Str.upper].
          rewrite !upper_char_digit, H1, H2. cbn [andb].
          rewrite (digit_upper_char _ H1), (digit_upper_char _ H2).
          rewrite (digit_upper_char _ Hy1), (digit_upper_char _ Hy2).
          cbn [String.substring String.length Nat.eqb andb list_ascii_of_string forallb].
          now rewrite Ha, Hb, Hc, Hy1, Hy2.
        * pose proof (digit_val_range _ H1) as R1.
          pose proof (digit_val_range _ H2) as R2.
          assert (Hfmt : Utils.format_02d
                           (Utils.int_of_digits 0 (String c1 (String c2 EmptyString)))
                         = String c1 (String c2 EmptyString)).
          { unfold Utils.format_02d. cbn [Utils.int_of_digits].
            replace ((10 * (10 * 0 + Str.digit_val c1) + Str.digit_val c2) / 10)%Z
              with (Str.digit_val c1) by (Z.div_mod_to_equations; lia).
            replace ((10 * (10 * 0 + Str.digit_val c1) + Str.digit_val c2) mod 10)%Z
              with (Str.digit_val c2) by (Z.div_mod_to_equations; lia).
            now rewrite !digit_char_round_trip. }
          rewrite Hfmt. unfold Utils.strptime_dby, Utils.parse_day_field.
          cbn [append]. rewrite H1, H2, Hr. cbn [andb].
          unfold MON, YEAR. cbn [append String.substring String.length Nat.eqb negb].
          fold MON. rewrite Hmon. rewrite Hy. exact Hp.
      + (* one digit *)
        cbn [andb] in Hday.
        destruct (negb (Str.digit_val c1 =? 0)%Z) eqn:Hnz; [ | ].
        * injection Hday as <- -> ->.
          exists (String c1 EmptyString), MON, YEAR. split.
          -- unfold Utils.match_expiry_pattern. cbn [Str.upper].
             rewrite !upper_char_digit, H1, H2. cbn [andb].
             rewrite (digit_upper_char _ H1).
             rewrite (digit_upper_char _ Hy1), (digit_upper_char _ Hy2).
             cbn [String.substring String.length Nat.eqb andb list_ascii_of_string forallb].
             now rewrite Ha, Hb, Hc, Hy1, Hy2.
          -- pose proof (digit_val_range _ H1) as R1.
             apply negb_true_iff, Z.eqb_neq in Hnz.
             assert (Hfmt : Utils.format_02d
                              (Utils.int_of_digits 0 (String c1 EmptyString))
                            = String "0"%char (String c1 EmptyString)).
             { unfold Utils.format_02d. cbn [Utils.int_of_digits].
               replace ((10 * 0 + Str.digit_val c1) / 10)%Z with 0%Z by (Z.div_mod_to_equations; lia).
               replace ((10 * 0 + Str.digit_val c1) mod 10)%Z
                 with (Str.digit_val c1) by (Z.div_mod_to_equations; lia).
               now rewrite digit_char_round_trip. }
             rewrite Hfmt. unfold Utils.strptime_dby, Utils.parse_day_field.
             cbn [append]. rewrite H1.
             replace (Str.is_digit_char "0") with true by reflexivity.
             cbn [andb].
             replace (10 * Str.digit_val "0" + Str.digit_val c1)%Z
               with (Str.digit_val c1) by reflexivity.
             replace ((1 <=? Str.digit_val c1)%Z && (Str.digit_val c1 <=? 31)%Z)
               with true
               by (symmetry; apply andb_true_iff; split; apply Z.leb_le; lia).
             unfold MON, YEAR.
             cbn [append String.substring String.length Nat.eqb negb].
             fold MON. rewrite Hmon. rewrite Hy. exact Hp.
        * cbn [andb] in Hday.
          destruct (Ascii.eqb c1 " "); discriminate Hday.
    - cbn [andb] in Hday.
      destruct (Ascii.eqb_spec c1 " "%char) as [-> | Hne];
        [exfalso; now apply (Hblank (String c2 rest)) | discriminate Hday]. }
  destruct Hnorm as (day & month & year & Hm & Hs).
  unfold Utils.convert_expiration_to_years. rewrite Hm, Hs. cbn [Py.bind].
  destruct (Rlt_dec (IZR (d * 86400 + 8 * 3600) - now) 0); reflexivity.
Qed.

Lemma time_to_expiry_of_parsed_code_witness :
  Utils.convert_expiration_to_years (IZR (739380 * 86400 + 8 * 3600) + 1) "9may25"
  = None.
Proof.
  rewrite (@time_to_expiry_of_parsed_code
             (IZR (739380 * 86400 + 8 * 3600) + 1) "9may25" 739380 eq_refl).
  - destruct (Rlt_dec _ 0) as [H | H]; [reflexivity | exfalso; lra].
  - discriminate.
Defined.

Lemma match_expiry_pattern_append (s t : string) (g : string * string * string) :
  Utils.match_expiry_pattern s = Some g ->
  Utils.match_expiry_pattern (s ++ t) = Some g.
Proof.
  assert (H00 : forall u, String.substring 0 0 u = EmptyString)
    by (intros [| ? ?]; reflexivity).
  unfold Utils.match_expiry_pattern. intros H.
  destruct s as [| c1 [| c2 r]]; try discriminate H. cbn [append].
  destruct (Str.is_digit_char c1 && Str.is_digit_char c2).
  - destruct r as [| a [| b [| c [| y1 [| y2 r']]]]]; try discriminate H.
    cbn [append String.substring String.length] in *.
    rewrite H00 in *. exact H.
  - destruct (Str.is_digit_char c1); [ | discriminate H].
    destruct r as [| b [| c [| y1 [| y2 r']]]]; try discriminate H.
    cbn [append String.substring String.length] in *.
    rewrite H00 in *. exact H.
Qed.

(** The expiry code is matched at its start only: text that follows a
    well-formed code is ignored by the time to expiry. *)
Theorem time_to_expiry_ignores_trailing_text
  (now : R) (expiration suffix : string) (g : string * string * string) :
  Utils.match_expiry_pattern (Str.upper expiration) = Some g ->
  Utils.convert_expiration_to_years now (expiration ++ suffix)
  = Utils.convert_expiration_to_years now expiration.
Proof.
  intros H. unfold Utils.convert_expiration_to_years.
  rewrite upper_append, (match_expiry_pattern_append _ _ H), H. reflexivity.
Qed.

Lemma time_to_expiry_ignores_trailing_text_witness :
  Utils.convert_expiration_to_years 0 "9MAY25-50000-C"
  = Utils.convert_expiration_to_years 0 "9MAY25"
  /\ Utils.convert_future_name_to_date "BTC-9MAY25X" = Raise ValueError.
Proof.
  split; [ | reflexivity].
  apply (@time_to_expiry_ignores_trailing_text 0 "9MAY25" "-50000-C"
           ("9", "MAY", "25")).
  reflexivity.
Defined.

(** ** The retry loop *)



(** More retries never change a result that was obtained: they only turn
    a [None] into the result of a later accepted response. *)
Theorem fetch_data_more_retries {A : Type}
  (responses : nat -> Transport.response A) (retries more : nat) (x : A) (sent : nat) :
  Transport.fetch_data responses retries = (Some x, sent) ->
  Transport.fetch_data responses (retries + more) = (Some x, sent).
Proof.
  unfold Transport.fetch_data. generalize 0%nat as attempt.
  induction retries as [| n IH]; intros attempt H; simpl in *; [discriminate H | ].
  destruct (Transport.accepted (responses attempt)); [exact H | ].
  now apply IH.
Qed.

Lemma fetch_data_more_retries_witness :
  Transport.fetch_data
    (fun k => if (k <? 2)%nat then Transport.Http 503 None
              else Transport.Http 200 (Some 7%Z)) (3 + 2)
  = (Some 7%Z, 3%nat).
Proof.
  apply (@fetch_data_more_retries Z
           (fun k => if (k <? 2)%nat then Transport.Http 503 None
                     else Transport.Http 200 (Some 7%Z)) 3 2 7%Z 3%nat).
  reflexivity.
Defined.

(** ** An expired code *)

Lemma price_black_76_without_time (F K : R) (iv : float64) (kind : string) :
  Pricing.price_black_76 F K None iv kind = None.
Proof.
  unfold Pricing.price_black_76.
  destruct (Pricing.valid_option_type kind); [ | reflexivity]. cbn [negb].
  destruct (Req_dec_T K 0); reflexivity.
Qed.

(** An expiry code without a time to expiry (malformed, or in the past) is
    never priced: whatever the venue quotes and whatever the currency, the
    strike, the kind, the volatility and the known futures are,
    [price_option] returns [None]. *)
Theorem price_option_without_time_is_absent
  (v : Api.Venue) (now : R) (currency expiry_code : string) (strike : R)
  (option_type : string) (iv : float64) (existing_futures : list string) :
  Utils.convert_expiration_to_years now expiry_code = None ->
  Pricing.price_option v now currency expiry_code strike option_type iv
    existing_futures = None.
Proof.
  intros HT. unfold Pricing.price_option. rewrite HT.
  destruct (Pricing.valid_option_type option_type); [ | reflexivity].
  cbn [negb].
  destruct (Pricing.resolve_future_price v currency expiry_code existing_futures)
    as [[F | ] | e]; cbn [Py.bind Py.try_except_None_opt]; try reflexivity.
  apply price_black_76_without_time.
Qed.

Lemma price_option_without_time_is_absent_witness :
  Pricing.price_option scenario_venue 0
    "BTC" "11MAI25" 100000 "call" (Fin (55 / 100)%R)
    ["BTC-11MAY25"; "BTC-21MAY25"] = None.
Proof.
  apply price_option_without_time_is_absent. reflexivity.
Defined.

(** ** The synthetic future between two quotes *)




(** ** The dictionary a cycle writes *)

Lemma mem_key_In (k : R) (ks : list R) :
  Dict.mem_key k ks = true <-> In k ks.
Proof.
  induction ks as [| k' r IH]; simpl; [split; [discriminate | tauto] | ].
  destruct (Req_dec_T k k') as [-> | Hne].
  - split; [now left | reflexivity].
  - rewrite IH. split; [now right | ]. intros [H | H]; [now subst | exact H].
Qed.

Lemma mem_key_not_In (k : R) (ks : list R) :
  Dict.mem_key k ks = false <-> ~ In k ks.
Proof.
  rewrite <- mem_key_In. destruct (Dict.mem_key k ks); split; intros H;
    try reflexivity; try discriminate; try (intros H'; discriminate).
  exfalso. now apply H.
Qed.

Lemma keys_set {V : Type} (d : Dict.t V) (k : R) (v : V) :
  Dict.keys (Dict.set d k v)
  = if Dict.mem_key k (Dict.keys d) then Dict.keys d
    else (Dict.keys d ++ [k])%list.
Proof.
  induction d as [| [k' v'] r IH]; simpl; [reflexivity | ].
  destruct (Req_dec_T k k') as [-> | Hne]; simpl; [reflexivity | ].
  unfold Dict.keys in *. rewrite IH.
  destruct (Dict.mem_key k (map fst r)); reflexivity.
Qed.

Lemma wf_set {V : Type} (d : Dict.t V) (k : R) (v : V) :
  Dict.wf d -> Dict.wf (Dict.set d k v).
Proof.
  unfold Dict.wf. intros Hwf. rewrite keys_set.
  destruct (Dict.mem_key k (Dict.keys d)) eqn:Hm; [exact Hwf | ].
  apply mem_key_not_In in Hm.
  apply (Permutation_NoDup (l := k :: Dict.keys d)).
  - apply Permutation_cons_append.
  - now constructor.
Qed.

Lemma In_keys_set {V : Type} (d : Dict.t V) (k : R) (v : V) (x : R) :
  In x (Dict.keys (Dict.set d k v)) <-> In x (Dict.keys d) \/ x = k.
Proof.
  rewrite keys_set. destruct (Dict.mem_key k (Dict.keys d)) eqn:Hm.
  - apply mem_key_In in Hm. split; [now left | ].
    intros [H | ->]; assumption.
  - rewrite in_app_iff. simpl. split.
    + intros [H | [<- | []]]; auto.
    + intros [H | ->]; auto.
Qed.

Lemma get_set_same {V : Type} (d : Dict.t V) (k : R) (v : V) :
  Dict.get (Dict.set d k v) k = Ok v.
Proof.
  induction d as [| [k' v'] r IH]; simpl.
  - destruct (Req_dec_T k k); [reflexivity | congruence].
  - destruct (Req_dec_T k k') as [-> | Hne]; simpl.
    + destruct (Req_dec_T k' k'); [reflexivity | congruence].
    + destruct (Req_dec_T k k'); [congruence | exact IH].
Qed.

Lemma get_missing {V : Type} (d : Dict.t V) (k : R) :
  Dict.mem_key k (Dict.keys d) = false -> Dict.get d k = Raise KeyError.
Proof.
  induction d as [| [k' v'] r IH]; simpl; [reflexivity | ].
  destruct (Req_dec_T k k'); [discriminate | exact IH].
Qed.

Lemma get_present {V : Type} (d : Dict.t V) (k : R) :
  Dict.mem_key k (Dict.keys d) = true -> exists v, Dict.get d k = Ok v.
Proof.
  induction d as [| [k' v'] r IH]; simpl; [discriminate | ].
  destruct (Req_dec_T k k'); [intros _; now exists v' | exact IH].
Qed.

(** A strike's task either raises or writes the strike's entry. *)
Lemma process_strike_writes
  (v : Api.Venue) (now : R) (currency : string) (strike : R) (expiry_code : string)
  (standard_strikes : list R) (output_dict : Dict.t Main.cell)
  (call_iv_fn put_iv_fn : option Pchip.PPoly)
  (calls_strike_iv puts_strike_iv : Dict.t Api.quote)
  (index_price : option R) (existing_futures : list string)
  (d : Dict.t Main.cell) :
  Main.process_strike v now currency strike expiry_code standard_strikes
    output_dict call_iv_fn put_iv_fn calls_strike_iv puts_strike_iv
    index_price existing_futures = Ok d ->
  exists c, d = Dict.set output_dict strike c.
Proof.
  unfold Main.process_strike.
  destruct (if Dict.mem_key strike standard_strikes then _ else _)
    as [[[[call_iv put_iv] ca] pa] | e]; cbn [Py.bind]; [ | discriminate].
  destruct (if Str.mem (Str.lower currency) ["eth"; "btc"] then _ else _)
    as [[cp pp] | e]; cbn [Py.bind]; [ | discriminate].
  intros H. injection H as <-. eexists. reflexivity.
Qed.

Lemma gather_strikes_keys
  (task : R -> Dict.t Main.cell -> result (Dict.t Main.cell))
  (strikes : list R) :
  (forall s d d', task s d = Ok d' -> exists c, d' = Dict.set d s c) ->
  forall d0 d, Main.gather_strikes task strikes d0 = Ok d ->
  Dict.wf d0 ->
  Dict.wf d
  /\ (forall k, In k (Dict.keys d) <-> In k (Dict.keys d0) \/ In k strikes).
Proof.
  intros Htask. induction strikes as [| s r IH]; intros d0 d; simpl.
  - intros H Hwf. injection H as <-. split; [exact Hwf | ]. intros k. tauto.
  - destruct (task s d0) as [d1 | e] eqn:Hs; cbn [Py.bind]; [ | discriminate].
    intros H Hwf. destruct (Htask _ _ _ Hs) as [c ->].
    destruct (IH _ _ H (wf_set s c Hwf)) as [Hwf' Hk].
    split; [exact Hwf' | ]. intros k. rewrite Hk, In_keys_set.
    split; intros Hin.
    + destruct Hin as [[Hin | ->] | Hin]; auto.
    + destruct Hin as [Hin | [<- | Hin]]; auto.
Qed.

(** The dictionary a cycle hands to [save] has one entry for each
    requested strike and no other: its keys are pairwise distinct and
    they are the requested strikes, however often and in whatever order a
    strike has been requested. *)
Theorem cycle_output_has_the_requested_strikes
  (v : Api.Venue) (now : R) (p : Main.Params) (i : Main.Init)
  (d : Dict.t Main.cell) :
  Main.cycle v now p i = Ok d ->
  Dict.wf d
  /\ (forall k, In k (Dict.keys d) <-> In k (Main.strikes p))
  /\ (List.length d <= List.length (Main.strikes p))%nat.
Proof.
  unfold Main.cycle.
  destruct (Api.get_strike_iv_price_dict v (Main.currency p) (Main.expiry_code p))
    as [[calls puts] | e]; cbn [Py.bind]; [ | discriminate].
  destruct (if Main.iv_interpolation_needed i then _ else _)
    as [[call_iv_fn put_iv_fn] | e]; cbn [Py.bind]; [ | discriminate].
  intros H.
  apply gather_strikes_keys in H.
  - destruct H as [Hwf Hk].
    assert (Hk' : forall k, In k (Dict.keys d) <-> In k (Main.strikes p)).
    { intros k. rewrite Hk. simpl. tauto. }
    split; [exact Hwf | ]. split; [exact Hk' | ].
    replace (List.length d) with (List.length (Dict.keys d))
      by (unfold Dict.keys; apply length_map).
    apply NoDup_incl_length; [exact Hwf | ].
    intros k Hin. now apply Hk'.
  - intros s d0 d' Hs. exact (process_strike_writes _ _ _ _ _ _ _ _ _ _ _ _ _ Hs).
  - constructor.
Qed.

Lemma cycle_output_has_the_requested_strikes_witness :
  exists d,
    Main.cycle (Main.venue_at shrinking_world 1) 0
      {| Main.currency := "BTC"; Main.expiry_code := "27JUN25";
         Main.strikes := [48000%R; 48000%R] |}
      {| Main.standard_strikes := Dict.keys two_strike_grid;
         Main.existing_futures := [];
         Main.number_of_iterations := 1;
         Main.iv_interpolation_needed := false |} = Ok d
    /\ (List.length d <= 2)%nat
    /\ In 48000%R (Dict.keys d).
Proof.
  set (p := {| Main.currency := "BTC"; Main.expiry_code := "27JUN25";
               Main.strikes := [48000%R; 48000%R] |}).
  set (i := {| Main.standard_strikes := Dict.keys two_strike_grid;
               Main.existing_futures := [];
               Main.number_of_iterations := 1;
               Main.iv_interpolation_needed := false |}).
  destruct (Main.cycle (Main.venue_at shrinking_world 1) 0 p i) as [d | e] eqn:Hc.
  - exists d. split; [reflexivity | ].
    destruct (@cycle_output_has_the_requested_strikes
                (Main.venue_at shrinking_world 1) 0%R p i d Hc) as [_ [Hk Hlen]].
    split; [exact Hlen | ]. apply Hk. now left.
  - exfalso. revert Hc. unfold Main.cycle, Main.process_strike. simpl.
    repeat (destruct (Req_dec_T _ _); try lra; simpl);
      cbn [Py.bind]; discriminate.
Defined.

(** ** The run as the successful cycles before the first failure *)

Lemma cycles_prefix (w : Main.World) (p : Main.Params) (i : Main.Init)
  (remaining k : nat) (saved_so_far : list (Dict.t Main.cell)) :
  exists ds,
    Main.saved (Main.cycles w p i k remaining saved_so_far)
    = (saved_so_far ++ ds)%list
    /\ (forall j, (j < List.length ds)%nat ->
          Main.cycle (Main.venue_at w (S (k + j))) (Main.clock_at w (S (k + j))) p i
          = Ok (nth j ds []))
    /\ match Main.status (Main.cycles w p i k remaining saved_so_far) with
       | Main.Completed => List.length ds = remaining
       | Main.Aborted e =>
           (List.length ds < remaining)%nat
           /\ Main.cycle (Main.venue_at w (S (k + List.length ds)))
                (Main.clock_at w (S (k + List.length ds))) p i = Raise e
       end.
Proof.
  revert k saved_so_far.
  induction remaining as [| n IH]; intros k saved_so_far; simpl.
  - exists []. rewrite app_nil_r. split; [reflexivity | ].
    split; [simpl; intros j Hj; lia | reflexivity].
  - destruct (Main.cycle (Main.venue_at w (S k)) (Main.clock_at w (S k)) p i)
      as [d | e] eqn:Hc.
    + destruct (IH (S k) (saved_so_far ++ [d])%list) as [ds [Hs [Hj Hst]]].
      exists (d :: ds). split; [rewrite Hs, <- app_assoc; reflexivity | ].
      split.
      * intros [| j] Hlt; simpl in *.
        -- rewrite Nat.add_0_r. exact Hc.
        -- replace (k + S j)%nat with (S k + j)%nat by lia.
           apply Hj. lia.
      * destruct (Main.status _).
        -- simpl. now rewrite Hst.
        -- simpl. destruct Hst as [Hlt He]. split; [lia | ].
           replace (k + S (List.length ds))%nat
             with (S k + List.length ds)%nat by lia.
           exact He.
    + exists []. simpl. rewrite app_nil_r, Nat.add_0_r.
      split; [reflexivity | ]. split; [intros j Hj; lia | ].
      split; [lia | exact Hc].
Qed.

Lemma initialise_iterations (v : Api.Venue) (p : Main.Params) (t1 t2 : Z)
  (i : Main.Init) :
  Main.initialise v p t1 t2 = Ok i ->
  t2 <> 0%Z /\ Main.number_of_iterations i = Z.quot t1 t2.
Proof.
  unfold Main.initialise.
  destruct (Api.get_strike_iv_price_dict v (Main.currency p) (Main.expiry_code p))
    as [[calls puts] | e]; cbn [Py.bind]; [ | discriminate].
  destruct (Api.get_existing_futures v (Main.currency p))
    as [futures | e]; cbn [Py.bind]; [ | discriminate].
  destruct (Z.eqb_spec t2 0) as [-> | Hne]; cbn [Py.bind]; [discriminate | ].
  intros H. injection H as <-. split; [exact Hne | reflexivity].
Qed.

(** After a successful initialisation, what a run saves is exactly the
    outputs of the cycles 1, 2, ... up to the first cycle that raises:
    the entry number [j] of the saved list is the output of the cycle
    number [j + 1], a completed run has saved all the [int(t1 / t2)]
    cycles, and an aborted run has saved fewer and ends with the
    exception of the first cycle that is not saved. *)
Theorem run_saves_the_cycles_before_the_first_failure
  (w : Main.World) (p : Main.Params) (t1 t2 : Z) (i : Main.Init) :
  Main.initialise (Main.venue_at w 0) p t1 t2 = Ok i ->
  let r := Main.main_loop w p t1 t2 in
  let n := List.length (Main.saved r) in
  (forall j, (j < n)%nat ->
     Main.cycle (Main.venue_at w (S j)) (Main.clock_at w (S j)) p i
     = Ok (nth j (Main.saved r) []))
  /\ match Main.status r with
     | Main.Completed => n = Z.to_nat (Z.quot t1 t2)
     | Main.Aborted e =>
         (n < Z.to_nat (Z.quot t1 t2))%nat
         /\ Main.cycle (Main.venue_at w (S n)) (Main.clock_at w (S n)) p i
            = Raise e
     end.
Proof.
  intros Hi r n. subst r n. unfold Main.main_loop. rewrite Hi.
  destruct (initialise_iterations _ _ _ _ Hi) as [_ ->].
  destruct (cycles_prefix w p i (Z.to_nat (Z.quot t1 t2)) 0 [])
    as [ds [Hs [Hj Hst]]].
  rewrite Hs. simpl. split; [exact Hj | exact Hst].
Qed.

Lemma run_saves_the_cycles_before_the_first_failure_witness :
  let r := Main.main_loop shrinking_world
             {| Main.currency := "BTC"; Main.expiry_code := "27JUN25";
                Main.strikes := [48000%R] |} 7 2 in
  match Main.status r with
  | Main.Completed => List.length (Main.saved r) = 3%nat
  | Main.Aborted e => (List.length (Main.saved r) < 3)%nat
  end.
Proof.
  intros r.
  pose proof (@run_saves_the_cycles_before_the_first_failure shrinking_world
                {| Main.currency := "BTC"; Main.expiry_code := "27JUN25";
                   Main.strikes := [48000%R] |} 7 2 _ eq_refl) as [_ H].
  fold r in H. destruct (Main.status r); [exact H | exact (proj1 H)].
Defined.

(** ** A strike the venue stops quoting *)

Lemma gather_strikes_raises
  (task : R -> Dict.t Main.cell -> result (Dict.t Main.cell))
  (strikes : list R) (s : R) :
  In s strikes ->
  (forall d, exists e, task s d = Raise e) ->
  forall d0, exists e, Main.gather_strikes task strikes d0 = Raise e.
Proof.
  intros Hin Hs. induction strikes as [| s' r IH]; [destruct Hin | ].
  intros d0. simpl. destruct (task s' d0) as [d1 | e] eqn:Ht; cbn [Py.bind].
  - destruct Hin as [-> | Hin].
    + destruct (Hs d0) as [e He]. congruence.
    + now apply IH.
  - now exists e.
Qed.

(** A requested strike that was on the grid at the initialisation and
    that the fresh quotes of a cycle no longer list, on the call or on
    the put side, makes the cycle raise: the strike is looked up in the
    fresh dictionaries, not interpolated. *)
Theorem delisted_strike_fails_the_cycle
  (v : Api.Venue) (now : R) (p : Main.Params) (i : Main.Init)
  (calls puts : Dict.t Api.quote) (s : R) :
  Api.get_strike_iv_price_dict v (Main.currency p) (Main.expiry_code p)
  = Ok (calls, puts) ->
  In s (Main.strikes p) ->
  Dict.mem_key s (Main.standard_strikes i) = true ->
  Dict.mem_key s (Dict.keys calls) = false
  \/ Dict.mem_key s (Dict.keys puts) = false ->
  exists e, Main.cycle v now p i = Raise e.
Proof.
  intros Hg Hin Hstd Hmiss. unfold Main.cycle. rewrite Hg. cbn [Py.bind].
  destruct (if Main.iv_interpolation_needed i then _ else _)
    as [[call_iv_fn put_iv_fn] | e]; cbn [Py.bind]; [ | now exists e].
  apply gather_strikes_raises with (s := s); [exact Hin | ]. intros d.
  unfold Main.process_strike. rewrite Hstd.
  destruct (Dict.get calls s) as [c | e] eqn:Hc; cbn [Py.bind];
    [ | now exists e].
  destruct (Dict.get puts s) as [q | e] eqn:Hq; cbn [Py.bind];
    [ | now exists e].
  destruct Hmiss as [Hm | Hm]; apply get_missing in Hm; congruence.
Qed.

Lemma delisted_strike_fails_the_cycle_witness :
  exists e,
    Main.cycle (Main.venue_at shrinking_world 2) 0
      {| Main.currency := "BTC"; Main.expiry_code := "27JUN25";
         Main.strikes := [50000%R; 48000%R] |}
      {| Main.standard_strikes := Dict.keys two_strike_grid;
         Main.existing_futures := [];
         Main.number_of_iterations := 2;
         Main.iv_interpolation_needed := false |} = Raise e.
Proof.
  apply (@delisted_strike_fails_the_cycle (Main.venue_at shrinking_world 2) 0%R
           {| Main.currency := "BTC"; Main.expiry_code := "27JUN25";
              Main.strikes := [50000%R; 48000%R] |}
           {| Main.standard_strikes := Dict.keys two_strike_grid;
              Main.existing_futures := [];
              Main.number_of_iterations := 2;
              Main.iv_interpolation_needed := false |}
           [(50000%R, ((55 / 100)%R, 1200%R))]
           [(50000%R, ((55 / 100)%R, 1100%R))] 48000%R eq_refl).
  - simpl. right. now left.
  - simpl. destruct (Req_dec_T 48000 50000) as [He | _]; [lra | ].
    destruct (Req_dec_T 48000 48000) as [_ | Hne]; [reflexivity | now elim Hne].
  - left. simpl. destruct (Req_dec_T _ _); [lra | reflexivity].
Defined.

(** ** Strikes quoted on both sides, for eth and btc *)

Lemma gather_strikes_succeeds
  (task : R -> Dict.t Main.cell -> result (Dict.t Main.cell))
  (strikes : list R) :
  (forall s, In s strikes -> forall d, exists d', task s d = Ok d') ->
  forall d0, exists d, Main.gather_strikes task strikes d0 = Ok d.
Proof.
  induction strikes as [| s r IH]; intros Hall d0; simpl; [now exists d0 | ].
  destruct (Hall s (or_introl eq_refl) d0) as [d1 ->]. cbn [Py.bind].
  apply IH. intros s' Hs'. apply Hall. now right.
Qed.

(** For eth and btc, a cycle whose requested strikes are listed by the
    fresh quotes on both sides, or are off the initial grid with both
    curves available, never raises: whatever the venue answers for the
    futures, the tickers and the index, and whatever the clock and the
    expiry code are, the cycle hands a dictionary to [save]. *)
Theorem eth_btc_quoted_cycle_succeeds
  (v : Api.Venue) (now : R) (p : Main.Params) (i : Main.Init)
  (calls puts : Dict.t Api.quote) :
  Str.mem (Str.lower (Main.currency p)) ["eth"; "btc"]%string = true ->
  Api.get_strike_iv_price_dict v (Main.currency p) (Main.expiry_code p)
  = Ok (calls, puts) ->
  (Main.iv_interpolation_needed i = true ->
   exists c q, Pricing.iv_interpolator calls = Ok c
               /\ Pricing.iv_interpolator puts = Ok q) ->
  (forall s, In s (Main.strikes p) ->
     if Dict.mem_key s (Main.standard_strikes i)
     then Dict.mem_key s (Dict.keys calls) = true
          /\ Dict.mem_key s (Dict.keys puts) = true
     else Main.iv_interpolation_needed i = true) ->
  exists d, Main.cycle v now p i = Ok d.
Proof.
  intros Hcur Hg Hiv Hs. unfold Main.cycle. rewrite Hg. cbn [Py.bind].
  destruct (Main.iv_interpolation_needed i) eqn:Hneed.
  - destruct (Hiv eq_refl) as [c [q [-> ->]]]. cbn [Py.bind].
    apply gather_strikes_succeeds. intros s Hin d. specialize (Hs s Hin).
    unfold Main.process_strike. rewrite Hcur.
    destruct (Dict.mem_key s (Main.standard_strikes i)).
    + destruct Hs as [Hc Hq].
      destruct (get_present _ _ Hc) as [x ->].
      destruct (get_present _ _ Hq) as [y ->].
      cbn [Py.bind]. eexists. reflexivity.
    + cbn [Main.call_iv_fn_at Py.bind]. eexists. reflexivity.
  - cbn [Py.bind].
    apply gather_strikes_succeeds. intros s Hin d. specialize (Hs s Hin).
    unfold Main.process_strike. rewrite Hcur.
    destruct (Dict.mem_key s (Main.standard_strikes i)); [ | discriminate].
    destruct Hs as [Hc Hq].
    destruct (get_present _ _ Hc) as [x ->].
    destruct (get_present _ _ Hq) as [y ->].
    cbn [Py.bind]. eexists. reflexivity.
Qed.

Lemma eth_btc_quoted_cycle_succeeds_witness :
  exists d,
    Main.cycle (Main.venue_at shrinking_world 2) 0
      {| Main.currency := "BTC"; Main.expiry_code := "27JUN25";
         Main.strikes := [50000%R] |}
      {| Main.standard_strikes := Dict.keys two_strike_grid;
         Main.existing_futures := [];
         Main.number_of_iterations := 2;
         Main.iv_interpolation_needed := false |} = Ok d.
Proof.
  apply (@eth_btc_quoted_cycle_succeeds (Main.venue_at shrinking_world 2) 0%R
           {| Main.currency := "BTC"; Main.expiry_code := "27JUN25";
              Main.strikes := [50000%R] |}
           {| Main.standard_strikes := Dict.keys two_strike_grid;
              Main.existing_futures := [];
              Main.number_of_iterations := 2;
              Main.iv_interpolation_needed := false |}
           [(50000%R, ((55 / 100)%R, 1200%R))]
           [(50000%R, ((55 / 100)%R, 1100%R))] eq_refl eq_refl).
  - discriminate.
  - intros s [<- | []]. simpl.
    destruct (Req_dec_T 50000 50000) as [_ | Hne]; [ | now elim Hne].
    split; reflexivity.
Defined.

(** ** The table of [save] *)

Lemma flat_map_pair_length (ts : string) (l : list (R * Main.cell)) :
  List.length (flat_map (Save.rows_of_strike ts) l) = (2 * List.length l)%nat.
Proof. induction l as [| e r IH]; simpl; [reflexivity | rewrite IH; lia]. Qed.

Lemma get_of_entry {V : Type} (d : Dict.t V) (k : R) (c : V) :
  Dict.wf d -> In (k, c) d -> Dict.get d k = Ok c.
Proof.
  unfold Dict.wf, Dict.keys.
  induction d as [| [k' c'] r IH]; simpl; intros Hwf Hin; [destruct Hin | ].
  inversion Hwf as [| ? ? Hnotin Hwf']; subst.
  destruct Hin as [Heq | Hin].
  - injection Heq as -> ->.
    destruct (Req_dec_T k k); [reflexivity | congruence].
  - destruct (Req_dec_T k k') as [-> | Hne]; [ | now apply IH].
    exfalso. apply Hnotin. apply in_map_iff. now exists (k', c).
Qed.

(** The table [save] builds from a dictionary has two rows for each
    entry; the rows are ordered by strike, whatever the order in which
    the entries have been written; every row carries the time of the
    call, and it is the call row or the put row of an entry of the
    dictionary; when the keys are distinct, the entry is the one the
    dictionary holds at the row's strike. *)
Theorem save_rows_by_strike (ts : string) (d : Dict.t Main.cell) :
  List.length (Save.rows ts d) = (2 * List.length d)%nat
  /\ StronglySorted Rle (map Save.strike_price (Save.rows ts d))
  /\ (forall r, In r (Save.rows ts d) <->
        exists e, In e d /\ In r (Save.rows_of_strike ts e))
  /\ (Dict.wf d ->
      forall r, In r (Save.rows ts d) ->
        Save.timestamp r = ts
        /\ exists c, Dict.get d (Save.strike_price r) = Ok c
             /\ (r = {| Save.timestamp := ts;
                        Save.strike_price := Save.strike_price r;
                        Save.option_type := "call";
                        Save.deribit_mark_price := Main.deribit_call_mark_price c;
                        Save.computed_mark_price := Main.call_mark_price c |}
                 \/
                 r = {| Save.timestamp := ts;
                        Save.strike_price := Save.strike_price r;
                        Save.option_type := "put";
                        Save.deribit_mark_price := Main.deribit_put_mark_price c;
                        Save.computed_mark_price := Main.put_mark_price c |})).
Proof.
  assert (Hin : forall r, In r (Save.rows ts d) <->
                exists e, In e d /\ In r (Save.rows_of_strike ts e)).
  { intros r. unfold Save.rows. rewrite in_flat_map. split.
    - intros [e [He Hr]]. exists e. split; [ | exact Hr].
      apply (Permutation_in e (Permutation_sym (sorted_items_perm d)) He).
    - intros [e [He Hr]]. exists e. split; [ | exact Hr].
      apply (Permutation_in e (sorted_items_perm d) He). }
  split; [ | split; [ | split; [exact Hin | ]]].
  - unfold Save.rows. rewrite flat_map_pair_length.
    now rewrite <- (Permutation_length (sorted_items_perm d)).
  - unfold Save.rows. pose proof (sorted_items_sorted d) as Hs.
    induction Hs as [| e l Hs IH Hall]; simpl; [constructor | ].
    assert (Hrest : Forall (Rle (fst e))
              (map Save.strike_price (flat_map (Save.rows_of_strike ts) l))).
    { rewrite Forall_forall in *. intros x Hx.
      apply in_map_iff in Hx. destruct Hx as [r [<- Hr]].
      apply in_flat_map in Hr. destruct Hr as [e' [He' Hr]].
      specialize (Hall e' He'). unfold by_key in Hall.
      destruct Hr as [<- | [<- | []]]; exact Hall. }
    constructor; [constructor; [exact IH | exact Hrest] | ].
    constructor; [apply Rle_refl | exact Hrest].
  - intros Hwf r Hr. apply Hin in Hr. destruct Hr as [[k c] [He Hr]].
    destruct Hr as [<- | [<- | []]]; simpl;
      (split; [reflexivity | ]); exists c;
      (split; [now apply get_of_entry | ]); [now left | now right].
Qed.

(** ** The case of the currency *)

Lemma lower_char_idem (c : ascii) :
  Str.lower_char (Str.lower_char c) = Str.lower_char c.
Proof. all_chars c. Qed.

Lemma lower_idem (s : string) : Str.lower (Str.lower s) = Str.lower s.
Proof.
  induction s as [| c r IH]; simpl; [reflexivity | ].
  now rewrite lower_char_idem, IH.
Qed.

(** The index a currency is priced against does not depend on the case
    the currency is written in, and neither does the choice between the
    perpetual and a dated future; the name of the instrument asked for
    keeps the case of the currency. *)
Theorem index_and_routing_ignore_case (v : Api.Venue) (currency expiry_code : string) :
  Api.get_index_price v (Str.upper currency) = Api.get_index_price v currency
  /\ Api.get_index_price v (Str.lower currency) = Api.get_index_price v currency
  /\ Pricing.future_name_of (Str.upper currency) expiry_code
     = (if Str.mem (Str.lower currency) Api.dated_currencies
        then Str.upper currency ++ "-" ++ expiry_code
        else Str.upper currency ++ "-PERPETUAL")
  /\ Pricing.future_name_of (Str.lower currency) expiry_code
     = (if Str.mem (Str.lower currency) Api.dated_currencies
        then Str.lower currency ++ "-" ++ expiry_code
        else Str.lower currency ++ "-PERPETUAL").
Proof.
  unfold Api.get_index_price, Utils.map_index_name, Pricing.future_name_of.
  rewrite lower_upper, lower_idem.
  repeat split; try reflexivity;
    destruct (Str.mem (Str.lower currency) Api.dated_currencies); reflexivity.
Qed.

Lemma prefix_chars (needle s : string) (c : ascii) :
  String.prefix needle s = true ->
  In c (list_ascii_of_string needle) -> In c (list_ascii_of_string s).
Proof.
  revert s. induction needle as [| a r IH]; intros s Hp Hin; [destruct Hin | ].
  destruct s as [| b t]; simpl in Hp; [discriminate | ].
  destruct (Ascii.ascii_dec a b) as [-> | Hne]; [ | discriminate].
  simpl in *. destruct Hin as [-> | Hin]; [now left | right; now apply IH].
Qed.

Lemma contains_chars (needle s : string) (c : ascii) :
  Str.contains needle s = true ->
  In c (list_ascii_of_string needle) -> In c (list_ascii_of_string s).
Proof.
  induction s as [| b t IH]; simpl; intros Hc Hin.
  - rewrite Bool.orb_false_r in Hc.
    exact (prefix_chars needle "" c Hc Hin).
  - apply Bool.orb_true_iff in Hc. destruct Hc as [Hp | Hc].
    + exact (prefix_chars needle (String b t) c Hp Hin).
    + right. now apply IH.
Qed.

Lemma filter_none {A : Type} (f : A -> bool) (l : list A) :
  (forall x, In x l -> f x = false) -> filter f l = [].
Proof.
  induction l as [| a r IH]; intros H; simpl; [reflexivity | ].
  rewrite (H a (or_introl eq_refl)). apply IH. intros x Hx. apply H. now right.
Qed.

Lemma price_option_no_future
  (v : Api.Venue) (now : R) (currency expiry_code : string) (strike : R)
  (option_type : string) (iv : float64) :
  Str.mem (Str.lower currency) Api.dated_currencies = true ->
  Pricing.price_option v now currency expiry_code strike option_type iv [] = None.
Proof.
  intros Hd. unfold Pricing.price_option.
  destruct (Pricing.valid_option_type option_type); [ | reflexivity].
  cbn [negb]. unfold Pricing.resolve_future_price. rewrite Hd.
  cbn [Str.mem negb andb].
  unfold Pricing.create_synthetic_future_price. cbn [mapM Py.bind].
  destruct (Utils.convert_future_name_to_date _) as [t | e];
    cbn [Py.bind]; reflexivity.
Qed.

(** The command line accepts a currency in any case, but the futures
    are selected by a case-sensitive test: for a currency written with a
    lower-case letter, at a venue whose instrument names hold none, the
    initialisation finds no future, and with no future an option of btc,
    eth or paxg_usdc is never priced. *)
Theorem lower_case_currency_finds_no_future
  (v : Api.Venue) (currency : string) (data : list string) :
  existsb Str.is_lower_char (list_ascii_of_string currency) = true ->
  Api.instruments v (Utils.map_currency currency) = Some data ->
  (forall name, In name data ->
     existsb Str.is_lower_char (list_ascii_of_string name) = false) ->
  Api.get_existing_futures v currency = Ok []
  /\ (Str.mem (Str.lower currency) Api.dated_currencies = true ->
      forall now expiry_code strike option_type iv,
        Pricing.price_option v now currency expiry_code strike option_type iv []
        = None).
Proof.
  intros Hlow Hdata Hnames. split.
  - unfold Api.get_existing_futures. rewrite Hdata. f_equal.
    apply filter_none. intros name Hname.
    destruct (Str.contains currency name) eqn:Hc; [ | reflexivity].
    exfalso. apply existsb_exists in Hlow. destruct Hlow as [c [Hc1 Hc2]].
    pose proof (contains_chars currency name c Hc Hc1) as Hin.
    specialize (Hnames name Hname).
    assert (Ht : existsb Str.is_lower_char (list_ascii_of_string name) = true)
      by (apply existsb_exists; now exists c).
    congruence.
  - intros Hd now expiry_code strike option_type iv.
    now apply price_option_no_future.
Qed.

Lemma lower_case_currency_finds_no_future_witness :
  Main.main idle_world
    {| Main.currency := "btc"; Main.expiry_code := "9MAY25";
       Main.strikes := [100000%R] |} 1 2
  = Main.Ran {| Main.saved := []; Main.status := Main.Completed |}
  /\ Api.get_existing_futures weekly_venue "btc" = Ok []
  /\ Pricing.price_option weekly_venue 0 "btc" "9MAY25" 100000 "call"
       (Fin (55 / 100)%R) [] = None.
Proof.
  split; [reflexivity | ].
  destruct (@lower_case_currency_finds_no_future weekly_venue "btc"
              ["BTC-2MAY25"; "BTC-9MAY25"] eq_refl eq_refl) as [H1 H2].
  - intros name [<- | [<- | []]]; reflexivity.
  - split; [exact H1 | ]. apply H2. reflexivity.
Defined.

(** ** The price in units of the currency *)

Lemma round_half_even_near (r : R) :
  (Rabs (IZR (Np.round_half_even r) - r) <= / 2)%R.
Proof.
  unfold Np.round_half_even.
  destruct (base_Int_part r) as [Hlo Hhi].
  set (f := Int_part r) in *.
  assert (H1 : (IZR (f + 1) = IZR f + 1)%R) by apply plus_IZR.
  destruct (Rlt_dec (r - IZR f) (/ 2)) as [Hd | Hd].
  - apply Rabs_le. lra.
  - destruct (Rlt_dec (/ 2) (r - IZR f)) as [Hu | Hu].
    + apply Rabs_le. lra.
    + destruct (Z.even f); apply Rabs_le; lra.
Qed.

Lemma round_half_even_nonneg (r : R) :
  (0 <= r)%R -> (0 <= Np.round_half_even r)%Z.
Proof.
  intros Hr. unfold Np.round_half_even.
  destruct (base_Int_part r) as [Hlo Hhi].
  assert (Hf : (0 <= Int_part r)%Z).
  { apply Z.lt_succ_r. apply lt_IZR. rewrite succ_IZR. lra. }
  destruct (Rlt_dec _ _); [exact Hf | ].
  destruct (Rlt_dec _ _); [lia | ].
  destruct (Z.even _); lia.
Qed.

(** The price of a finite USD price in units of the currency: for an
    index other than zero it is a multiple of one ten-thousandth, within
    half a ten-thousandth of the quotient, and it is not negative when
    the quotient is not; for an index of zero it is not a finite number
    (the division is NumPy's and does not raise); it is never absent. *)
Theorem normalized_price_is_the_rounded_quotient (p i : R) :
  match Pricing.normalize_usd_price_to_currency (Some (Fin p)) (Some i) with
  | Some (Fin q) =>
      i <> 0%R
      /\ exists n : Z,
           q = (IZR n / 10000)%R
           /\ (Rabs (q - p / i) <= 1 / 20000)%R
           /\ ((0 <= p / i)%R -> (0 <= n)%Z /\ (0 <= q)%R)
  | Some _ => i = 0%R
  | None => False
  end.
Proof.
  unfold Pricing.normalize_usd_price_to_currency, Np.div.
  destruct (Req_dec_T i 0) as [Hi | Hi].
  - unfold Np.inf_times.
    destruct (Rlt_dec 0 p); [exact Hi | ].
    destruct (Rlt_dec p 0); exact Hi.
  - cbn [Np.round4]. split; [exact Hi | ].
    exists (Np.round_half_even (p / i * 10000)).
    split; [reflexivity | ].
    pose proof (round_half_even_near (p / i * 10000)) as Hn.
    split.
    + revert Hn. unfold Rabs.
      destruct (Rcase_abs (IZR (Np.round_half_even (p / i * 10000))
                           - p / i * 10000));
        destruct (Rcase_abs (IZR (Np.round_half_even (p / i * 10000)) / 10000
                             - p / i)); lra.
    + intros Hq.
      assert (Hz : (0 <= Np.round_half_even (p / i * 10000))%Z)
        by (apply round_half_even_nonneg; lra).
      split; [exact Hz | ]. apply IZR_le in Hz. lra.
Qed.

(** ** The order of the listings *)

Lemma sorted_perm_unique {A : Type} (le : A -> A -> Prop) (l1 l2 : list A) :
  (forall a b, In a l1 -> In b l1 -> le a b -> le b a -> a = b) ->
  StronglySorted le l1 -> StronglySorted le l2 -> Permutation l1 l2 ->
  l1 = l2.
Proof.
  revert l2. induction l1 as [| a r1 IH]; intros l2 Hanti Hs1 Hs2 Hp.
  - apply Permutation_nil in Hp. now subst.
  - destruct l2 as [| b r2];
      [apply Permutation_sym, Permutation_nil in Hp; discriminate | ].
    inversion Hs1 as [| ? ? Hs1' Hall1]; subst.
    inversion Hs2 as [| ? ? Hs2' Hall2]; subst.
    rewrite Forall_forall in Hall1, Hall2.
    assert (Hab : a = b).
    { assert (Ha : In a (b :: r2))
        by (apply (Permutation_in a Hp); now left).
      assert (Hb : In b (a :: r1))
        by (apply (Permutation_in b (Permutation_sym Hp)); now left).
      destruct Ha as [-> | Ha]; [reflexivity | ].
      destruct Hb as [-> | Hb]; [reflexivity | ].
      apply Hanti; [now left | now right | now apply Hall1 | now apply Hall2]. }
    subst b. f_equal. apply Permutation_cons_inv in Hp.
    apply IH; try assumption.
    intros x y Hx Hy. apply Hanti; now right.
Qed.

Lemma nodup_key_injective {A K : Type} (key : A -> K) (l : list A) (a b : A) :
  NoDup (map key l) -> In a l -> In b l -> key a = key b -> a = b.
Proof.
  induction l as [| x r IH]; intros Hnd Ha Hb Hk; [destruct Ha | ].
  simpl in Hnd. inversion Hnd as [| ? ? Hnotin Hnd']; subst.
  destruct Ha as [-> | Ha], Hb as [-> | Hb]; try reflexivity.
  - exfalso. apply Hnotin. rewrite Hk. now apply in_map.
  - exfalso. apply Hnotin. rewrite <- Hk. now apply in_map.
  - now apply IH.
Qed.

Lemma sorted_items_of_perm {V : Type} (d1 d2 : Dict.t V) :
  Dict.wf d1 -> Permutation d1 d2 ->
  Dict.sorted_items d1 = Dict.sorted_items d2.
Proof.
  intros Hwf Hp.
  apply (@sorted_perm_unique _ by_key).
  - intros a b Ha Hb Hab Hba.
    apply (nodup_key_injective fst d1); try assumption.
    + apply (Permutation_in a (Permutation_sym (sorted_items_perm d1)) Ha).
    + apply (Permutation_in b (Permutation_sym (sorted_items_perm d1)) Hb).
    + unfold by_key in *. now apply Rle_antisym.
  - apply sorted_items_sorted.
  - apply sorted_items_sorted.
  - eapply perm_trans; [apply Permutation_sym, sorted_items_perm | ].
    eapply perm_trans; [exact Hp | apply sorted_items_perm].
Qed.

(** The implied-volatility curve does not depend on the order in which
    the venue lists the strikes: two dictionaries with distinct keys and
    the same entries give the same curve, or the same exception. *)
Theorem iv_curve_ignores_the_listing_order
  (d1 d2 : Dict.t Api.quote) :
  Dict.wf d1 -> Permutation d1 d2 ->
  Pricing.iv_interpolator d1 = Pricing.iv_interpolator d2.
Proof.
  intros Hwf Hp. unfold Pricing.iv_interpolator.
  now rewrite (sorted_items_of_perm Hwf Hp).
Qed.

Lemma iv_curve_ignores_the_listing_order_witness :
  Pricing.iv_interpolator two_strike_grid
  = Pricing.iv_interpolator
      [(48000%R, ((60 / 100)%R, 2100%R)); (50000%R, ((55 / 100)%R, 1200%R))].
Proof.
  apply iv_curve_ignores_the_listing_order.
  - apply two_strike_grid_wf.
  - apply perm_swap.
Defined.

Lemma mapM_perm {A B : Type} (f : A -> result B) (l1 l2 : list A) :
  Permutation l1 l2 ->
  forall bs1, mapM f l1 = Ok bs1 ->
  exists bs2, mapM f l2 = Ok bs2 /\ Permutation bs1 bs2.
Proof.
  induction 1 as [| a l1 l2 Hp IH | a b l | l1 l2 l3 H12 IH12 H23 IH23];
    intros bs1 H1.
  - exists bs1. split; [exact H1 | apply Permutation_refl].
  - simpl in *. destruct (f a) as [x | e]; cbn [Py.bind] in *; [ | discriminate].
    destruct (mapM f l1) as [xs | e]; cbn [Py.bind] in *; [ | discriminate].
    injection H1 as <-. destruct (IH xs eq_refl) as [ys [-> Hys]].
    cbn [Py.bind]. exists (x :: ys). split; [reflexivity | now apply perm_skip].
  - simpl in *. destruct (f b) as [y | e]; cbn [Py.bind] in *; [ | discriminate].
    destruct (f a) as [x | e]; cbn [Py.bind] in *; [ | discriminate].
    destruct (mapM f l) as [xs | e]; cbn [Py.bind] in *; [ | discriminate].
    injection H1 as <-. exists (x :: y :: xs).
    split; [reflexivity | apply perm_swap].
  - destruct (IH12 bs1 H1) as [bs2 [H2 Hp12]].
    destruct (IH23 bs2 H2) as [bs3 [H3 Hp23]].
    exists bs3. split; [exact H3 | eapply perm_trans; eassumption].
Qed.

Lemma sort_by_date_of_perm (l1 l2 : list (string * Z)) :
  NoDup (map snd l1) -> Permutation l1 l2 ->
  Pricing.sort_by_date l1 = Pricing.sort_by_date l2.
Proof.
  intros Hnd Hp.
  apply (@sorted_perm_unique _ by_date).
  - intros a b Ha Hb Hab Hba.
    apply (nodup_key_injective snd l1); try assumption.
    + apply (Permutation_in a (Permutation_sym (sort_by_date_perm l1)) Ha).
    + apply (Permutation_in b (Permutation_sym (sort_by_date_perm l1)) Hb).
    + unfold by_date in *. lia.
  - apply sort_by_date_sorted.
  - apply sort_by_date_sorted.
  - eapply perm_trans; [apply Permutation_sym, sort_by_date_perm | ].
    eapply perm_trans; [exact Hp | apply sort_by_date_perm].
Qed.

(** When the names of the known futures all carry a date and no two of
    them the same date, the synthetic forward does not depend on the
    order in which the venue lists the futures. *)
Theorem synthetic_future_ignores_the_listing_order
  (v : Api.Venue) (currency expiry_code : string)
  (futures1 futures2 : list string) (eds : list (string * Z)) :
  dated_futures futures1 = Ok eds ->
  NoDup (map snd eds) ->
  Permutation futures1 futures2 ->
  Pricing.create_synthetic_future_price v currency expiry_code futures1
  = Pricing.create_synthetic_future_price v currency expiry_code futures2.
Proof.
  intros He Hnd Hp.
  destruct (mapM_perm _ Hp He) as [eds2 [He2 Hp2]].
  unfold Pricing.create_synthetic_future_price.
  unfold dated_futures in He. rewrite He, He2. cbn [Py.bind].
  now rewrite (sort_by_date_of_perm Hnd Hp2).
Qed.

Lemma synthetic_future_ignores_the_listing_order_witness :
  Pricing.create_synthetic_future_price scenario_venue "BTC" "16MAY25"
    ["BTC-11MAY25"; "BTC-21MAY25"]
  = Pricing.create_synthetic_future_price scenario_venue "BTC" "16MAY25"
      ["BTC-21MAY25"; "BTC-11MAY25"].
Proof.
  apply (@synthetic_future_ignores_the_listing_order scenario_venue "BTC"
           "16MAY25" ["BTC-11MAY25"; "BTC-21MAY25"]
           ["BTC-21MAY25"; "BTC-11MAY25"]
           [("BTC-11MAY25", 739382%Z); ("BTC-21MAY25", 739392%Z)] eq_refl).
  - simpl. constructor; [ | constructor; [ | constructor]].
    + intros [H | []]. discriminate.
    + intros [].
  - apply perm_swap.
Defined.

(** ** The option grid *)

Lemma get_set_other {V : Type} (d : Dict.t V) (k k' : R) (v : V) :
  k <> k' -> Dict.get (Dict.set d k' v) k = Dict.get d k.
Proof.
  intros Hne. induction d as [| [k0 v0] r IH]; simpl.
  - destruct (Req_dec_T k k'); [contradiction | reflexivity].
  - destruct (Req_dec_T k' k0) as [-> | Hne0]; simpl.
    + destruct (Req_dec_T k k0); [contradiction | reflexivity].
    + destruct (Req_dec_T k k0); [reflexivity | exact IH].
Qed.

Section GridLemmas.

Variable process_strike : string -> result R.
Variable expiry_code : string.

Lemma fill_wf (es : list Book.option_entry) :
  forall c p c' p',
    Book.fill es c p = Book.Returned (c', p') ->
    Dict.wf c -> Dict.wf p -> Dict.wf c' /\ Dict.wf p'.
Proof.
  induction es as [| e r IH]; intros c p c' p' H Hc Hp; simpl in H.
  - injection H as <- <-. now split.
  - destruct (Book.entry_mark_price e) as [price | ]; [ | discriminate].
    destruct (String.eqb (Book.option_type e) "C").
    + apply (IH _ _ _ _ H); [now apply wf_set | exact Hp].
    + apply (IH _ _ _ _ H); [exact Hc | now apply wf_set].
Qed.

Lemma fill_priced (es : list Book.option_entry) :
  forall c p cp,
    Book.fill es c p = Book.Returned cp ->
    forall e, In e es -> exists price, Book.entry_mark_price e = Some price.
Proof.
  induction es as [| e r IH]; intros c p cp H e' Hin; [destruct Hin | ].
  simpl in H. destruct (Book.entry_mark_price e) as [price | ] eqn:Hp;
    [ | discriminate].
  destruct Hin as [<- | Hin]; [now exists price | ].
  destruct (String.eqb (Book.option_type e) "C"); exact (IH _ _ _ H e' Hin).
Qed.

Lemma fill_miss (k : R) (call : bool) (es : list Book.option_entry) :
  (forall e, In e es -> ~ hits k call e) ->
  forall c p cp,
    Book.fill es c p = Book.Returned cp ->
    Dict.get (side call cp) k = Dict.get (side call (c, p)) k.
Proof.
  induction es as [| e r IH]; intros Hno c p cp H; simpl in H.
  - injection H as <-. reflexivity.
  - destruct (Book.entry_mark_price e) as [price | ]; [ | discriminate].
    assert (Hr : forall e', In e' r -> ~ hits k call e')
      by (intros e' He'; apply Hno; now right).
    specialize (Hno e (or_introl eq_refl)). unfold hits in Hno.
    destruct (String.eqb (Book.option_type e) "C") eqn:Ht.
    + rewrite (IH Hr _ _ _ H). destruct call; simpl; [ | reflexivity].
      apply get_set_other. intros Hk. apply Hno. now split.
    + rewrite (IH Hr _ _ _ H). destruct call; simpl; [reflexivity | ].
      apply get_set_other. intros Hk. apply Hno. now split.
Qed.

Lemma fill_app (es1 es2 : list Book.option_entry) :
  forall c p,
    Book.fill (es1 ++ es2) c p
    = Book.and_then (Book.fill es1 c p)
        (fun cp => Book.fill es2 (fst cp) (snd cp)).
Proof.
  induction es1 as [| e r IH]; intros c p; simpl; [reflexivity | ].
  destruct (Book.entry_mark_price e); [ | reflexivity].
  destruct (String.eqb (Book.option_type e) "C"); apply IH.
Qed.

Lemma collect_app (l1 l2 : list Book.item) :
  Book.collect process_strike expiry_code (l1 ++ l2)
  = Book.and_then (Book.collect process_strike expiry_code l1) (fun a =>
    Book.and_then (Book.collect process_strike expiry_code l2) (fun b =>
    Book.Returned (a ++ b)%list)).
Proof.
  induction l1 as [| it r IH]; simpl.
  - destruct (Book.collect process_strike expiry_code l2); reflexivity.
  - destruct (Book.filter_item process_strike expiry_code it) as [o | e];
      simpl; [ | reflexivity].
    rewrite IH.
    destruct (Book.collect process_strike expiry_code r) as [a | e];
      simpl; [ | reflexivity].
    destruct (Book.collect process_strike expiry_code l2) as [b | e];
      simpl; [ | reflexivity].
    destruct o; reflexivity.
Qed.

Lemma collect_In (l : list Book.item) :
  forall es, Book.collect process_strike expiry_code l = Book.Returned es ->
  forall e, In e es ->
  exists it, In it l
    /\ Book.filter_item process_strike expiry_code it = Book.Returned (Some e).
Proof.
  induction l as [| it r IH]; intros es H e Hin; simpl in H.
  - injection H as <-. destruct Hin.
  - destruct (Book.filter_item process_strike expiry_code it) as [o | x] eqn:Hf;
      simpl in H; [ | discriminate].
    destruct (Book.collect process_strike expiry_code r) as [es' | x];
      simpl in H; [ | discriminate].
    injection H as <-.
    destruct o as [e0 | ].
    + destruct Hin as [<- | Hin].
      * exists it. split; [now left | exact Hf].
      * destruct (IH es' eq_refl e Hin) as [it' [Hit' Hf']].
        exists it'. split; [now right | exact Hf'].
    + destruct (IH es' eq_refl e Hin) as [it' [Hit' Hf']].
      exists it'. split; [now right | exact Hf'].
Qed.

Lemma collect_complete (l : list Book.item) :
  forall es, Book.collect process_strike expiry_code l = Book.Returned es ->
  forall it e, In it l ->
  Book.filter_item process_strike expiry_code it = Book.Returned (Some e) ->
  In e es.
Proof.
  induction l as [| it0 r IH]; intros es H it e Hin Hf; [destruct Hin | ].
  simpl in H.
  destruct (Book.filter_item process_strike expiry_code it0) as [o | x] eqn:Hf0;
    simpl in H; [ | discriminate].
  destruct (Book.collect process_strike expiry_code r) as [es' | x];
    simpl in H; [ | discriminate].
  injection H as <-.
  destruct Hin as [-> | Hin].
  - rewrite Hf in Hf0. injection Hf0 as <-. now left.
  - pose proof (IH es' eq_refl it e Hin Hf) as He.
    destruct o; [now right | exact He].
Qed.

Lemma last_such {A : Type} (P : A -> Prop) (l : list A) :
  (exists x, In x l /\ P x) ->
  exists l1 x l2, l = (l1 ++ x :: l2)%list /\ P x
                  /\ forall y, In y l2 -> ~ P y.
Proof.
  induction l as [| a r IH]; intros [x [Hin Hx]]; [destruct Hin | ].
  destruct (classic (exists y, In y r /\ P y)) as [Hr | Hr].
  - destruct (IH Hr) as [l1 [y [l2 [-> [Hy Hl2]]]]].
    exists (a :: l1), y, l2. split; [reflexivity | now split].
  - destruct Hin as [-> | Hin].
    + exists [], x, r. split; [reflexivity | ]. split; [exact Hx | ].
      intros y Hy HPy. apply Hr. now exists y.
    + exfalso. apply Hr. now exists x.
Qed.

Lemma last_listed_is_held (items : list Book.item)
  (cp : Dict.t Api.quote * Dict.t Api.quote) (k : R) (call : bool)
  (q : Api.quote) :
  Book.and_then (Book.collect process_strike expiry_code items)
    (fun filtered => Book.fill filtered [] []) = Book.Returned cp ->
  last_listed process_strike expiry_code items k call q ->
  Dict.get (side call cp) k = Ok q.
Proof.
  intros H [l1 [it [l2 [-> [Hq Hl2]]]]].
  destruct Hq as [e [price [Hf [Hk [Ht [Hp ->]]]]]].
  rewrite collect_app in H.
  destruct (Book.collect process_strike expiry_code l1) as [es1 | x];
    simpl in H; [ | discriminate].
  rewrite Hf in H. simpl in H.
  destruct (Book.collect process_strike expiry_code l2) as [es2 | x] eqn:H2;
    simpl in H; [ | discriminate].
  rewrite fill_app in H.
  destruct (Book.fill es1 [] []) as [[c1 p1] | x]; simpl in H; [ | discriminate].
  rewrite Hp in H.
  assert (Hno : forall e', In e' es2 -> ~ hits k call e').
  { intros e' He' [Hk' Ht'].
    destruct (@collect_In l2 es2 H2 e' He') as [it' [Hit' Hf']].
    apply (Hl2 it' Hit'). exists e'. now repeat split. }
  destruct (String.eqb (Book.option_type e) "C") eqn:Hc; subst call.
  - rewrite (@fill_miss k true es2 Hno _ _ _ H). simpl.
    rewrite <- Hk. apply get_set_same.
  - rewrite (@fill_miss k false es2 Hno _ _ _ H). simpl.
    rewrite <- Hk. apply get_set_same.
Qed.

Lemma held_is_last_listed (items : list Book.item)
  (cp : Dict.t Api.quote * Dict.t Api.quote) (k : R) (call : bool)
  (q : Api.quote) :
  Book.and_then (Book.collect process_strike expiry_code items)
    (fun filtered => Book.fill filtered [] []) = Book.Returned cp ->
  Dict.get (side call cp) k = Ok q ->
  last_listed process_strike expiry_code items k call q.
Proof.
  intros H Hg.
  destruct (Book.collect process_strike expiry_code items) as [es | x] eqn:Hc;
    simpl in H; [ | discriminate].
  assert (Hex : exists it, In it items
                  /\ competes process_strike expiry_code it k call).
  { destruct (classic (exists e, In e es /\ hits k call e)) as [[e [He Hh]] | Hno].
    - destruct (@collect_In items es Hc e He) as [it [Hit Hf]].
      exists it. split; [exact Hit | ]. exists e.
      destruct Hh as [Hk Ht]. now repeat split.
    - exfalso.
      assert (Hno' : forall e, In e es -> ~ hits k call e)
        by (intros e He Hh; apply Hno; now exists e).
      rewrite (@fill_miss k call es Hno' _ _ _ H) in Hg.
      destruct call; simpl in Hg; discriminate. }
  destruct (@last_such _ (fun it => competes process_strike expiry_code it k call)
              items Hex) as [l1 [it [l2 [-> [[e [Hf [Hk Ht]]] Hl2]]]]].
  assert (He : In e es).
  { apply (@collect_complete (l1 ++ it :: l2)%list es Hc it e); [ | exact Hf].
    apply in_or_app. right. now left. }
  destruct (@fill_priced es [] [] cp H e He) as [price Hp].
  assert (Hl : last_listed process_strike expiry_code (l1 ++ it :: l2) k call
                 (Book.entry_mark_iv e, Book.round4 price)).
  { exists l1, it, l2. split; [reflexivity | ]. split; [ | exact Hl2].
    exists e, price. now repeat split. }
  assert (Hg' : Dict.get (side call cp) k
                = Ok (Book.entry_mark_iv e, Book.round4 price)).
  { apply (@last_listed_is_held (l1 ++ it :: l2) cp k call _); [ | exact Hl].
    rewrite Hc. exact H. }
  rewrite Hg in Hg'. injection Hg' as ->. exact Hl.
Qed.

End GridLemmas.

(** When [get_strike_iv_price_dict] returns, the keys of each of the two
    dictionaries are distinct, and a dictionary holds the quote [q] at
    the strike [k] exactly when [q] is the quote of the last item of the
    book that competes for the strike on that side: an item competes
    when its name contains the expiry code, its volatility is not null
    and the segment before the last reads as the strike; it is on the
    call side when the last segment of its name is [C] and on the put
    side otherwise. *)
Theorem option_grid_holds_the_last_listed_quotes
  (process_strike : string -> result R) (data : option (list Book.item))
  (expiry_code : string) (calls puts : Dict.t Api.quote) :
  Book.get_strike_iv_price_dict process_strike data expiry_code
  = Book.Returned (calls, puts) ->
  exists items,
    data = Some items
    /\ Dict.wf calls /\ Dict.wf puts
    /\ forall k q,
         (Dict.get calls k = Ok q
          <-> last_listed process_strike expiry_code items k true q)
         /\ (Dict.get puts k = Ok q
             <-> last_listed process_strike expiry_code items k false q).
Proof.
  unfold Book.get_strike_iv_price_dict.
  destruct data as [items | ]; [ | discriminate].
  intros H. exists items. split; [reflexivity | ].
  assert (Hwf : Dict.wf calls /\ Dict.wf puts).
  { destruct (Book.collect process_strike expiry_code items) as [es | x];
      simpl in H; [ | discriminate].
    apply (@fill_wf es [] [] calls puts H); constructor. }
  split; [exact (proj1 Hwf) | ]. split; [exact (proj2 Hwf) | ].
  intros k q. split; split.
  - apply (@held_is_last_listed process_strike expiry_code items
             (calls, puts) k true q H).
  - apply (@last_listed_is_held process_strike expiry_code items
             (calls, puts) k true q H).
  - apply (@held_is_last_listed process_strike expiry_code items
             (calls, puts) k false q H).
  - apply (@last_listed_is_held process_strike expiry_code items
             (calls, puts) k false q H).
Qed.

Lemma option_grid_holds_the_last_listed_quotes_witness :
  last_listed
    (fun s => if String.eqb s "100000" then Ok 100000%R else Raise ValueError)
    "9MAY25"
    [ {| Book.instrument_name := "BTC-9MAY25-100000-C";
         Book.mark_iv := Some 55%R; Book.mark_price := Some 1200%R |};
      {| Book.instrument_name := "BTC-9MAY25-100000-P";
         Book.mark_iv := Some 56%R; Book.mark_price := Some 1100%R |} ]
    100000 false ((56 / 100)%R, Book.round4 1100).
Proof.
  destruct (@option_grid_holds_the_last_listed_quotes
              (fun s => if String.eqb s "100000" then Ok 100000%R
                        else Raise ValueError)
              (Some [ {| Book.instrument_name := "BTC-9MAY25-100000-C";
                         Book.mark_iv := Some 55%R;
                         Book.mark_price := Some 1200%R |};
                      {| Book.instrument_name := "BTC-9MAY25-100000-P";
                         Book.mark_iv := Some 56%R;
                         Book.mark_price := Some 1100%R |} ])
              "9MAY25"
              [(100000%R, ((55 / 100)%R, Book.round4 1200))]
              [(100000%R, ((56 / 100)%R, Book.round4 1100))] eq_refl)
    as [items [Hd [_ [_ H]]]].
  injection Hd as <-.
  apply (proj2 (H 100000%R ((56 / 100)%R, Book.round4 1100))).
  simpl. destruct (Req_dec_T 100000 100000) as [_ | Hne];
    [reflexivity | now elim Hne].
Defined.

(** ** A code that is part of another code *)

Lemma prefix_app (n s b : string) :
  String.prefix n s = true -> String.prefix n (s ++ b) = true.
Proof.
  revert s. induction n as [| a r IH]; intros s H;
    [destruct s; [destruct b | ]; reflexivity | ].
  destruct s as [| c t]; simpl in *; [discriminate | ].
  destruct (Ascii.ascii_dec a c); [now apply IH | discriminate].
Qed.

Lemma contains_app_r (n s b : string) :
  Str.contains n s = true -> Str.contains n (s ++ b) = true.
Proof.
  induction s as [| c t IH]; intros H.
  - simpl in H. rewrite Bool.orb_false_r in H.
    destruct n; [ | discriminate]. destruct b; reflexivity.
  - change (String.prefix n (String c t) || Str.contains n t = true) in H.
    change (String.prefix n (String c t ++ b) || Str.contains n (t ++ b) = true).
    apply Bool.orb_true_iff in H. apply Bool.orb_true_iff.
    destruct H as [H | H]; [left; now apply prefix_app | right; now apply IH].
Qed.

Lemma contains_app_l (n a s : string) :
  Str.contains n s = true -> Str.contains n (a ++ s) = true.
Proof.
  intros H. induction a as [| c t IH]; [exact H | ].
  change (String.prefix n (String c (t ++ s)) || Str.contains n (t ++ s) = true).
  rewrite IH. apply Bool.orb_true_r.
Qed.

Lemma string_append_nil_r (s : string) : s ++ "" = s.
Proof. induction s as [| c r IH]; simpl; [reflexivity | now rewrite IH]. Qed.

Lemma string_append_assoc (a b c : string) : (a ++ b) ++ c = a ++ (b ++ c).
Proof. induction a as [| x r IH]; simpl; [reflexivity | now rewrite IH]. Qed.

Lemma split_from_sep (sep : ascii) (a b : string) :
  forall acc,
    Book.split_from sep acc (a ++ String sep b)
    = (Book.split_from sep acc a ++ Book.split_from sep "" b)%list.
Proof.
  induction a as [| c r IH]; intros acc; simpl.
  - rewrite Ascii.eqb_refl. reflexivity.
  - destruct (Ascii.eqb c sep); [now rewrite IH | apply IH].
Qed.

Lemma split_from_free (s : string) :
  dash_free s = true ->
  forall acc, Book.split_from "-" acc s = [acc ++ s].
Proof.
  unfold dash_free.
  induction s as [| c r IH]; intros H acc; simpl in *.
  - now rewrite string_append_nil_r.
  - apply Bool.andb_true_iff in H. destruct H as [Hc Hr].
    destruct (Ascii.eqb c "-"); [discriminate | ].
    rewrite (IH Hr (acc ++ String c "")). rewrite string_append_assoc.
    reflexivity.
Qed.

Lemma split_option_name (u s t : string) :
  dash_free s = true -> dash_free t = true ->
  Book.split "-" (u ++ "-" ++ s ++ "-" ++ t)
  = (Book.split "-" u ++ [s; t])%list.
Proof.
  intros Hs Ht. unfold Book.split.
  change (u ++ "-" ++ s ++ "-" ++ t) with (u ++ String "-" (s ++ String "-" t)).
  rewrite !split_from_sep, (@split_from_free s Hs), (@split_from_free t Ht).
  reflexivity.
Qed.

Lemma penultimate_of_two (l : list string) (s t : string) :
  Book.penultimate (l ++ [s; t]) = Book.Returned s
  /\ List.last (l ++ [s; t]) "" = t.
Proof.
  split.
  - unfold Book.penultimate. rewrite length_app.
    change (List.length [s; t]) with 2%nat.
    replace (2 <=? List.length l + 2)%nat with true
      by (symmetry; apply Nat.leb_le; lia).
    replace (List.length l + 2 - 2)%nat with (List.length l) by lia.
    rewrite nth_error_app2 by lia. rewrite Nat.sub_diag. reflexivity.
  - induction l as [| a r IH]; [reflexivity | ].
    simpl. destruct (r ++ [s; t])%list eqn:Hr; [ | exact IH].
    destruct r; discriminate.
Qed.

(** The expiry code is looked for anywhere in the name of an option:
    an option whose expiry only contains the requested code (19MAY25
    for the code 9MAY25) enters the grid of the requested code, and when
    it is listed last its quote is the one the grid holds at its
    strike. *)
Theorem option_of_a_longer_code_enters_the_grid
  (process_strike : string -> result R) (expiry_code : string)
  (underlying expiry strike_text kind : string) (iv price k : R)
  (items : list Book.item) (cp : Dict.t Api.quote * Dict.t Api.quote) :
  Str.contains expiry_code expiry = true ->
  dash_free strike_text = true -> dash_free kind = true ->
  process_strike strike_text = Ok k ->
  Book.get_strike_iv_price_dict process_strike
    (Some (items ++
           [ {| Book.instrument_name :=
                  underlying ++ "-" ++ expiry ++ "-" ++ strike_text ++ "-" ++ kind;
                Book.mark_iv := Some iv;
                Book.mark_price := Some price |} ])%list)
    expiry_code = Book.Returned cp ->
  Dict.get (if String.eqb kind "C" then fst cp else snd cp) k
  = Ok ((iv / 100)%R, Book.round4 price).
Proof.
  intros Hc Hs Ht Hk H.
  apply (@last_listed_is_held process_strike expiry_code _ cp k
           (String.eqb kind "C") _ H).
  eexists items, _, []. split; [reflexivity | ].
  split; [ | intros it' []].
  unfold quoted, Book.filter_item. cbn [Book.instrument_name Book.mark_iv].
  assert (Hin : Str.contains expiry_code
                  (underlying ++ "-" ++ expiry ++ "-" ++ strike_text ++ "-" ++ kind)
                = true).
  { apply contains_app_l. apply (contains_app_l expiry_code "-").
    now apply contains_app_r. }
  rewrite Hin.
  replace (underlying ++ "-" ++ expiry ++ "-" ++ strike_text ++ "-" ++ kind)
    with ((underlying ++ "-" ++ expiry) ++ "-" ++ strike_text ++ "-" ++ kind)
    by (rewrite !string_append_assoc; reflexivity).
  rewrite (@split_option_name (underlying ++ "-" ++ expiry) strike_text kind
             Hs Ht).
  destruct (penultimate_of_two (Book.split "-" (underlying ++ "-" ++ expiry))
              strike_text kind) as [-> ->].
  cbn [Book.and_then]. rewrite Hk. cbn [Book.of_result Book.and_then].
  eexists _, price. repeat split; reflexivity.
Qed.

Lemma option_of_a_longer_code_enters_the_grid_witness :
  exists calls puts,
    Book.get_strike_iv_price_dict
      (fun s => if String.eqb s "100000" then Ok 100000%R else Raise ValueError)
      (Some [ {| Book.instrument_name := "BTC-19MAY25-100000-C";
                 Book.mark_iv := Some 61%R;
                 Book.mark_price := Some 1500%R |} ])
      "9MAY25" = Book.Returned (calls, puts)
    /\ Dict.get calls 100000 = Ok ((61 / 100)%R, Book.round4 1500).
Proof.
  eexists _, _. split; [reflexivity | ].
  apply (@option_of_a_longer_code_enters_the_grid
           (fun s => if String.eqb s "100000" then Ok 100000%R
                     else Raise ValueError)
           "9MAY25" "BTC" "19MAY25" "100000" "C" 61 1500 100000 []
           (_, _) eq_refl eq_refl eq_refl eq_refl eq_refl).
Defined.

(** ** No time to expiry left, or no volatility *)

Section Black76Degenerate.

Local Open Scope R_scope.



End Black76Degenerate.



(** ** The tasks of a cycle do not interfere *)

(** What a strike's task does with [output_dict] does not depend on
    [output_dict]: it raises, or it writes one and the same entry. *)
Lemma process_strike_uniform
  (v : Api.Venue) (now : R) (currency : string) (strike : R) (expiry_code : string)
  (standard_strikes : list R)
  (call_iv_fn put_iv_fn : option Pchip.PPoly)
  (calls_strike_iv puts_strike_iv : Dict.t Api.quote)
  (index_price : option R) (existing_futures : list string) :
  (exists c, forall d,
      Main.process_strike v now currency strike expiry_code standard_strikes
        d call_iv_fn put_iv_fn calls_strike_iv puts_strike_iv
        index_price existing_futures = Ok (Dict.set d strike c))
  \/ (exists e, forall d,
        Main.process_strike v now currency strike expiry_code standard_strikes
          d call_iv_fn put_iv_fn calls_strike_iv puts_strike_iv
          index_price existing_futures = Raise e).
Proof.
  unfold Main.process_strike.
  destruct (if Dict.mem_key strike standard_strikes then _ else _)
    as [[[[call_iv put_iv] ca] pa] | e]; cbn [Py.bind];
    [ | right; exists e; reflexivity].
  destruct (if Str.mem (Str.lower currency) ["eth"; "btc"] then _ else _)
    as [[cp pp] | e]; cbn [Py.bind]; [ | right; exists e; reflexivity].
  left. eexists. intros d. reflexivity.
Qed.

Lemma gather_strikes_entries
  (task : R -> Dict.t Main.cell -> result (Dict.t Main.cell))
  (strikes : list R) :
  (forall s, (exists c, forall d, task s d = Ok (Dict.set d s c))
             \/ (exists e, forall d, task s d = Raise e)) ->
  forall d0 d, Main.gather_strikes task strikes d0 = Ok d ->
  (forall s, In s strikes ->
     exists c, (forall d1, task s d1 = Ok (Dict.set d1 s c))
               /\ Dict.get d s = Ok c)
  /\ (forall k, ~ In k strikes -> Dict.get d k = Dict.get d0 k).
Proof.
  intros Htask. induction strikes as [| s r IH]; intros d0 d H; simpl in H.
  - injection H as <-. split; [intros s [] | reflexivity].
  - destruct (Htask s) as [[c Hc] | [e He]];
      [ | rewrite He in H; discriminate].
    rewrite Hc in H. cbn [Py.bind] in H.
    destruct (IH _ _ H) as [Hin Hout]. split.
    + intros s' Hs'.
      destruct (classic (In s' r)) as [Hr | Hr]; [now apply Hin | ].
      destruct Hs' as [<- | Hs']; [ | contradiction].
      exists c. split; [exact Hc | ].
      rewrite (Hout s Hr). apply get_set_same.
    + intros k Hk. rewrite Hout by (intros Hr; apply Hk; now right).
      apply get_set_other. intros ->. apply Hk. now left.
Qed.

(** The entry a cycle writes for a strike is the entry the cycle writes
    when the strike is requested alone: the tasks of the other strikes,
    and a repetition of the strike, change nothing in it. *)
Theorem strike_entry_is_that_of_the_strike_alone
  (v : Api.Venue) (now : R) (p : Main.Params) (i : Main.Init)
  (d : Dict.t Main.cell) (s : R) :
  Main.cycle v now p i = Ok d ->
  In s (Main.strikes p) ->
  exists c,
    Dict.get d s = Ok c
    /\ Main.cycle v now
         {| Main.currency := Main.currency p;
            Main.expiry_code := Main.expiry_code p;
            Main.strikes := [s] |} i = Ok [(s, c)].
Proof.
  unfold Main.cycle. cbn [Main.currency Main.expiry_code Main.strikes].
  destruct (Api.get_strike_iv_price_dict v (Main.currency p) (Main.expiry_code p))
    as [[calls puts] | e]; cbn [Py.bind]; [ | discriminate].
  destruct (if Main.iv_interpolation_needed i then _ else _)
    as [[call_iv_fn put_iv_fn] | e]; cbn [Py.bind]; [ | discriminate].
  intros H Hs.
  apply gather_strikes_entries in H;
    [ | intros s'; apply process_strike_uniform].
  destruct H as [Hin _]. destruct (Hin s Hs) as [c [Hc Hg]].
  exists c. split; [exact Hg | ].
  cbn [Main.gather_strikes]. rewrite Hc. reflexivity.
Qed.

Lemma strike_entry_is_that_of_the_strike_alone_witness :
  exists d c,
    Main.cycle (Main.venue_at shrinking_world 1) 0
      {| Main.currency := "BTC"; Main.expiry_code := "27JUN25";
         Main.strikes := [50000%R; 48000%R] |}
      {| Main.standard_strikes := Dict.keys two_strike_grid;
         Main.existing_futures := [];
         Main.number_of_iterations := 1;
         Main.iv_interpolation_needed := false |} = Ok d
    /\ Dict.get d 48000 = Ok c
    /\ Main.cycle (Main.venue_at shrinking_world 1) 0
         {| Main.currency := "BTC"; Main.expiry_code := "27JUN25";
            Main.strikes := [48000%R] |}
         {| Main.standard_strikes := Dict.keys two_strike_grid;
            Main.existing_futures := [];
            Main.number_of_iterations := 1;
            Main.iv_interpolation_needed := false |} = Ok [(48000%R, c)].
Proof.
  set (p := {| Main.currency := "BTC"; Main.expiry_code := "27JUN25";
               Main.strikes := [50000%R; 48000%R] |}).
  set (i := {| Main.standard_strikes := Dict.keys two_strike_grid;
               Main.existing_futures := [];
               Main.number_of_iterations := 1;
               Main.iv_interpolation_needed := false |}).
  destruct (Main.cycle (Main.venue_at shrinking_world 1) 0 p i) as [d | e] eqn:Hc.
  - destruct (@strike_entry_is_that_of_the_strike_alone
                (Main.venue_at shrinking_world 1) 0%R p i d 48000%R Hc
                (or_intror (or_introl eq_refl))) as [c [Hg Hone]].
    exists d, c. split; [reflexivity | ]. split; [exact Hg | exact Hone].
  - exfalso. revert Hc. unfold Main.cycle, Main.process_strike. simpl.
    repeat (destruct (Req_dec_T _ _); try lra; simpl);
      cbn [Py.bind]; discriminate.
Defined.
